(** * Smart File Organizer: a shallow embedding of [organizer.py]

    The development follows the layout of the script: the two constant
    tables, the string helpers the script borrows from Python's standard
    library ([str.lower], [str.startswith], [os.path.splitext]), the file
    system and the process state, the helper functions, the organising loop,
    the summary printer and the entry point. The theorems come after the
    definitions. *)

From Stdlib Require Import ZArith Ascii String List Lia.
From stdpp Require Import base gmap strings list fin_maps pretty.

(** ** Python strings

    A Python [str] is modelled by [string]; a character of the model is a
    code point below 256. *)

Module PyStr.

(** [str.lower] on one code point below 256: the upper-case letters are
    [A]-[Z] and the Latin-1 ranges 192-214 and 216-222; each maps to the
    code point 32 above it, every other code point maps to itself. *)
Definition lower_char (c : ascii) : ascii :=
  let n := N_of_ascii c in
  if ((65 <=? n) && (n <=? 90)
      || (192 <=? n) && (n <=? 222) && negb (n =? 215))%N
  then ascii_of_N (n + 32)
  else c.

(** [s.lower()] *)
Fixpoint lower (s : string) : string :=
  match s with
  | EmptyString => EmptyString
  | String c s' => String (lower_char c) (lower s')
  end.

(** [s.startswith(".")] *)
Definition startswith_dot (s : string) : bool :=
  match s with
  | String c _ => bool_decide (c = "."%char)
  | EmptyString => false
  end.

(** [s.rfind(c)] for a one-character [c]: the highest index at which [c]
    occurs, [-1] when it does not occur. [i] is the index of the head of
    [s] and [last] the highest index found so far. *)
Fixpoint rfind_from (c : ascii) (s : string) (i last : Z) : Z :=
  match s with
  | EmptyString => last
  | String a s' => rfind_from c s' (i + 1) (if bool_decide (a = c) then i else last)
  end.

Definition rfind (c : ascii) (s : string) : Z := rfind_from c s 0 (-1).

(** [s[:n]] and [s[n:]] for [0 <= n]. *)
Fixpoint take (n : nat) (s : string) : string :=
  match n, s with
  | S n', String c s' => String c (take n' s')
  | _, _ => EmptyString
  end.

Fixpoint drop (n : nat) (s : string) : string :=
  match n, s with
  | S n', String _ s' => drop n' s'
  | _, _ => s
  end.

(** [s[i:i+1] != "."] for [0 <= i]. *)
Definition not_dot_at (s : string) (i : Z) : bool :=
  match String.get (Z.to_nat i) s with
  | Some c => negb (bool_decide (c = "."%char))
  | None => true
  end.

(** The loop of [genericpath._splitext] that skips the leading dots of the
    last path component: starting at [filenameIndex], it answers [true] as
    soon as it meets a character other than a dot, and [false] when it
    reaches [dotIndex]. [steps] is [dotIndex - filenameIndex], the number
    of iterations left. *)
Fixpoint scan_dots (p : string) (filenameIndex : Z) (steps : nat) : bool :=
  match steps with
  | O => false
  | S k =>
      if not_dot_at p filenameIndex then true
      else scan_dots p (filenameIndex + 1) k
  end.

(** [os.path.splitext(p)] on a POSIX host ([sep = "/"], no [altsep],
    [extsep = "."]). *)
Definition splitext (p : string) : string * string :=
  let sepIndex := rfind "/" p in
  let dotIndex := rfind "." p in
  if (sepIndex <? dotIndex)%Z
     && scan_dots p (sepIndex + 1) (Z.to_nat (dotIndex - (sepIndex + 1)))
  then (take (Z.to_nat dotIndex) p, drop (Z.to_nat dotIndex) p)
  else (p, "").

End PyStr.

(** ** Configuration: the two constant tables *)

Definition EXTENSION_TABLE : list (string * string) :=
  [ (".jpg", "Images"); (".jpeg", "Images"); (".png", "Images");
    (".gif", "Images"); (".bmp", "Images"); (".svg", "Images");
    (".webp", "Images"); (".ico", "Images"); (".tiff", "Images");
    (".heic", "Images");
    (".mp4", "Videos"); (".avi", "Videos"); (".mkv", "Videos");
    (".mov", "Videos"); (".wmv", "Videos"); (".flv", "Videos");
    (".webm", "Videos");
    (".pdf", "PDFs");
    (".doc", "Documents"); (".docx", "Documents"); (".txt", "Documents");
    (".rtf", "Documents"); (".odt", "Documents"); (".xls", "Documents");
    (".xlsx", "Documents"); (".ppt", "Documents"); (".pptx", "Documents");
    (".csv", "Documents");
    (".py", "Code"); (".js", "Code"); (".ts", "Code"); (".html", "Code");
    (".css", "Code"); (".java", "Code"); (".c", "Code"); (".cpp", "Code");
    (".h", "Code"); (".rb", "Code"); (".go", "Code"); (".rs", "Code");
    (".php", "Code"); (".swift", "Code"); (".kt", "Code"); (".sh", "Code");
    (".json", "Code"); (".xml", "Code"); (".yaml", "Code"); (".yml", "Code");
    (".sql", "Code"); (".md", "Code") ].

(** The dictionary literal [EXTENSION_MAP]. *)
Definition EXTENSION_MAP : gmap string string := list_to_map EXTENSION_TABLE.

Definition CATEGORIES : list string :=
  [ "Images"; "Videos"; "PDFs"; "Documents"; "Code"; "Others" ].

(** ** Classification *)

(** [EXTENSION_MAP.get(ext.lower(), "Others")] after
    [_, ext = os.path.splitext(filename)]. *)
Definition get_category (filename : string) : string :=
  let '(_, ext) := PyStr.splitext filename in
  default "Others" (EXTENSION_MAP !! PyStr.lower ext).

Definition is_hidden_or_system (filename : string) : bool :=
  PyStr.startswith_dot filename.

(** ** The file system and the process state

    A path is the list of its components below the root directory, so
    [os.path.join(p, name)] is [p ++ [name]] for a name without separator,
    which is what [os.listdir] yields and what the script builds from it. *)

Inductive kind := File | Dir.

Global Instance kind_eq_dec : EqDecision kind.
Proof. solve_decision. Defined.

Abbreviation path := (list string).
Abbreviation fs := (gmap (list string) kind).

(** The subclasses of [OSError] the script can meet, and the exceptions that
    can travel through it. [sys.exit(code)] raises [SystemExit]. *)
Inductive os_error :=
  | PermissionError
  | FileNotFoundError
  | NotADirectoryError
  | FileExistsError
  | OtherOSError.

Inductive exn :=
  | OSError (e : os_error)
  | KeyError (key : string)
  | SystemExit (code : Z).

(** The lines the script prints. The decorations of the text are left out;
    what a line reports is kept. *)
Inductive message :=
  | MsgNotExist (abs_path : path)
  | MsgNotADirectory (abs_path : path)
  | MsgInsufficientPermissions (abs_path : path)
  | MsgUsage
  | MsgScanning (target_path : path)
  | MsgPermissionDenied (entry : string)
  | MsgOSErrorMoving (entry : string) (e : os_error)
  | MsgAlreadyClean
  | MsgTitle (width : nat)
  | MsgBorder (cat_width count_width : nat)
  | MsgHeader (cat_width count_width : nat)
  | MsgRow (category : string) (count : nat)
  | MsgTotal (total : nat)
  | MsgDone.

Record world := World { files : gmap (list string) kind; stdout : list message }.

(** What a call does: it returns, it raises, or (a loop of the model that
    was given too little fuel) it has not finished. *)
Inductive outcome (A : Type) :=
  | Return (a : A)
  | Raise (e : exn)
  | Unfinished.
Arguments Return {A} a.
Arguments Raise {A} e.
Arguments Unfinished {A}.

Definition M (A : Type) : Type := world → outcome A * world.

Global Instance M_ret : MRet M := λ A a w, (Return a, w).

Global Instance M_bind : MBind M := λ A B k m w,
  match m w with
  | (Return a, w') => k a w'
  | (Raise e, w') => (Raise e, w')
  | (Unfinished, w') => (Unfinished, w')
  end.

Definition raise {A} (e : exn) : M A := λ w, (Raise e, w).

Definition sys_exit {A} (code : Z) : M A := raise (SystemExit code).

Definition print (m : message) : M unit := λ w,
  (Return tt, World (files w) (stdout w ++ [m])).

(** [try: body except ...: handler]; an exception the handler does not
    name goes on. *)
Definition try_except {A} (body : M A) (handler : exn → option (M A)) : M A :=
  λ w,
    match body w with
    | (Raise e, w') =>
        match handler e with
        | Some h => h w'
        | None => (Raise e, w')
        end
    | r => r
    end.

(** The exit status of the process when [main()] ends with this outcome: an
    uncaught exception other than [SystemExit] ends the interpreter with
    status 1. *)
Definition exit_status {A} (o : outcome A) : option Z :=
  match o with
  | Return _ => Some 0%Z
  | Raise (SystemExit code) => Some code
  | Raise _ => Some 1%Z
  | Unfinished => None
  end.

Definition path_exists (f : fs) (p : path) : bool :=
  bool_decide (is_Some (f !! p)).

Definition path_isdir (f : fs) (p : path) : bool :=
  bool_decide (f !! p = Some Dir).

Definition os_path_exists (p : path) : M bool := λ w,
  (Return (path_exists (files w) p), w).

Definition os_path_isdir (p : path) : M bool := λ w,
  (Return (path_isdir (files w) p), w).

(** What the host decides and the script cannot see: how a path string is
    made absolute, whether the process may read and write a directory, in
    which order a directory is listed, and whether a system call fails for a
    reason of the host's own (permissions, another volume, a full disk, ...).
    A copy that fails says whether it has left a file at the destination. *)
Class Host := {
  os_path_abspath : string → path;
  access_rw : fs → path → bool;
  listdir_order : fs → path → list string;
  listdir_fault : fs → path → option os_error;
  mkdir_fault : fs → path → option os_error;
  rename_fault : fs → path → path → option os_error;
  copy_fault : fs → path → path → option (os_error * bool);
  unlink_fault : fs → path → option os_error;
}.

(** A listing names every entry of the directory once. *)
Class HostLaws (H : Host) : Prop := {
  listdir_NoDup : ∀ (f : fs) (p : path), NoDup (listdir_order f p);
  listdir_elem : ∀ (f : fs) (p : path) (n : string),
    n ∈ listdir_order f p ↔ is_Some (f !! (p ++ [n]));
}.

(** The entries of the directory [p]: the names [n] such that [p ++ [n]]
    is in the file system. *)
Fixpoint child_of (p q : path) : option string :=
  match p, q with
  | [], [n] => Some n
  | a :: p', b :: q' => if decide (a = b) then child_of p' q' else None
  | _, _ => None
  end.

Definition dir_entries (f : fs) (p : path) : gset string :=
  set_omap (child_of p) (dom f).

(** ** System calls *)

Definition dirname (p : path) : path := removelast p.

Definition basename (p : path) : string := default "" (last p).

Section Program.

Context `{H : Host}.

Definition os_access_rw (p : path) : M bool := λ w,
  (Return (access_rw (files w) p), w).

(** [os.listdir(p)]: fails when [p] is not a directory or when the host
    refuses, and lists the entries in the host's order otherwise. *)
Definition os_listdir (p : path) : M (list string) := λ w,
  match files w !! p with
  | None => (Raise (OSError FileNotFoundError), w)
  | Some File => (Raise (OSError NotADirectoryError), w)
  | Some Dir =>
      match listdir_fault (files w) p with
      | Some e => (Raise (OSError e), w)
      | None => (Return (listdir_order (files w) p), w)
      end
  end.

(** The error of a system call that needs [p] to be a directory. *)
Definition not_a_directory (f : fs) (p : path) : os_error :=
  if path_exists f p then NotADirectoryError else FileNotFoundError.

(** [os.mkdir(name)] *)
Definition os_mkdir (name : path) : M unit := λ w,
  let f := files w in
  if path_exists f name then (Raise (OSError FileExistsError), w)
  else if negb (path_isdir f (dirname name))
  then (Raise (OSError (not_a_directory f (dirname name))), w)
  else match mkdir_fault f name with
       | Some e => (Raise (OSError e), w)
       | None => (Return tt, World (<[name := Dir]> f) (stdout w))
       end.

(** [os.makedirs(name, exist_ok=True)], on the reversed path [tail :: head]:
    the missing parents are made first, then [name] itself, and an
    [OSError] of [mkdir] is dropped when [name] is a directory by then. *)
Fixpoint makedirs_rev (rname : list string) : M unit :=
  let name := reverse rname in
  match rname with
  | _ :: rhead =>
      ex ← os_path_exists (reverse rhead);
      if negb ex
      then try_except (makedirs_rev rhead)
             (λ e : exn, match e with
                   | OSError FileExistsError => Some (mret tt)
                   | _ => None
                   end)
      else mret tt
  | [] => mret tt
  end ;;
  try_except (os_mkdir name)
    (λ e : exn, match e with
          | OSError _ =>
              Some (d ← os_path_isdir name;
                    if (d : bool) then mret tt else raise e)
          | _ => None
          end).

Definition os_makedirs_exist_ok (name : path) : M unit :=
  makedirs_rev (reverse name).

(** [shutil.move(src, dst)] for a source that is not a directory or a
    link. A destination that is a directory receives the source under its own
    name, and the call fails when that name is taken. The source must exist
    and the destination's folder must be a directory, otherwise nothing
    changes. Then [os.rename] is tried; when it raises an [OSError] the
    source is copied to the destination ([copy2]) and removed ([os.unlink]).
    A copy that fails raises, and may have left a file at the destination; a
    removal that fails raises and leaves the copy beside the source. *)
Definition shutil_move (src dst : path) : M unit := λ w,
  let f := files w in
  let real_dst := if path_isdir f dst then dst ++ [basename src] else dst in
  if path_isdir f dst && path_exists f real_dst
  then (Raise (OSError OtherOSError), w)
  else match f !! src with
       | None => (Raise (OSError FileNotFoundError), w)
       | Some k =>
           if negb (path_isdir f (dirname real_dst))
           then (Raise (OSError (not_a_directory f (dirname real_dst))), w)
           else match rename_fault f src real_dst with
                | None =>
                    (Return tt,
                     World (<[real_dst := k]> (delete src f)) (stdout w))
                | Some _ =>
                    match copy_fault f src real_dst with
                    | Some (e, left_behind) =>
                        (Raise (OSError e),
                         World (if left_behind : bool
                                then <[real_dst := k]> f else f)
                               (stdout w))
                    | None =>
                        let copied := <[real_dst := k]> f in
                        match unlink_fault copied src with
                        | Some e =>
                            (Raise (OSError e), World copied (stdout w))
                        | None =>
                            (Return tt,
                             World (delete src copied) (stdout w))
                        end
                    end
                end
       end.

(** ** Helper functions *)

Definition validate_path (path_ : string) : M path :=
  let abs_path := os_path_abspath path_ in
  ex ← os_path_exists abs_path;
  if negb ex then print (MsgNotExist abs_path) ;; sys_exit 1
  else
    d ← os_path_isdir abs_path;
    if negb d then print (MsgNotADirectory abs_path) ;; sys_exit 1
    else
      a ← os_access_rw abs_path;
      if negb a then print (MsgInsufficientPermissions abs_path) ;; sys_exit 1
      else mret abs_path.

Fixpoint create_folders (base_path : path) (categories : list string) : M unit :=
  match categories with
  | [] => mret tt
  | category :: rest =>
      let folder := base_path ++ [category] in
      os_makedirs_exist_ok folder ;;
      create_folders base_path rest
  end.

Definition create_category_folders (base_path : path) : M unit :=
  create_folders base_path CATEGORIES.

End Program.

(** The [while os.path.exists(dest)] loop of [resolve_duplicate], on the file
    system [f]; [None] when the fuel runs out before the loop ends. *)
Fixpoint resolve_loop (f : fs) (fuel : nat) (destination_folder : path)
    (name ext : string) (dest : path) (counter : nat) : option path :=
  match fuel with
  | O => None
  | S fuel' =>
      if path_exists f dest then
        let new_name := name +:+ "_" +:+ pretty counter +:+ ext in
        resolve_loop f fuel' destination_folder name ext
          (destination_folder ++ [new_name]) (counter + 1)
      else Some dest
  end.

Definition resolve_duplicate_fuel (fuel : nat) (f : fs)
    (destination_folder : path) (filename : string) : option path :=
  let dest := destination_folder ++ [filename] in
  if negb (path_exists f dest) then Some dest
  else
    let '(name, ext) := PyStr.splitext filename in
    resolve_loop f fuel destination_folder name ext dest 1.

(** [resolve_duplicate]: the loop is given two more steps than the file
    system has entries. *)
Definition resolve_duplicate (destination_folder : path) (filename : string)
    : M path := λ w,
  match resolve_duplicate_fuel (size (files w) + 2) (files w)
          destination_folder filename with
  | Some dest => (Return dest, w)
  | None => (Unfinished, w)
  end.

(** ** The summary dictionary

    A [dict[str, int]] keeps its keys in insertion order, which is the order
    [print_summary] lists them in: an association list with distinct keys. *)

Abbreviation dict := (list (string * nat)).

Fixpoint dict_get (d : dict) (key : string) : option nat :=
  match d with
  | [] => None
  | (k, v) :: d' => if decide (k = key) then Some v else dict_get d' key
  end.

(** [d[key] = value] *)
Fixpoint dict_set (d : dict) (key : string) (value : nat) : dict :=
  match d with
  | [] => [(key, value)]
  | (k, v) :: d' =>
      if decide (k = key) then (k, value) :: d'
      else (k, v) :: dict_set d' key value
  end.

(** [d[key] += 1], which raises [KeyError] on a missing key. *)
Definition dict_incr (d : dict) (key : string) : M dict :=
  match dict_get d key with
  | Some n => mret (dict_set d key (n + 1))
  | None => raise (KeyError key)
  end.

(** [sum(d.values())] *)
Definition dict_total (d : dict) : nat := sum_list d.*2.

(** [{cat: 0 for cat in CATEGORIES}] *)
Definition initial_summary : dict := (λ cat, (cat, 0)) <$> CATEGORIES.

(** ** The organising loop *)

Section Organizer.

Context `{H : Host}.

(** The body of the [for entry in os.listdir(base_path)] loop. *)
Definition organize_entry (base_path : path) (summary : dict)
    (entry : string) : M dict :=
  let src := base_path ++ [entry] in
  d ← os_path_isdir src;
  if (d : bool) then mret summary
  else if is_hidden_or_system entry then mret summary
  else
    let category := get_category entry in
    let dest_folder := base_path ++ [category] in
    dest_path ← resolve_duplicate dest_folder entry;
    try_except
      (shutil_move src dest_path ;; dict_incr summary category)
      (λ e : exn,
         match e with
         | OSError PermissionError =>
             Some (print (MsgPermissionDenied entry) ;; mret summary)
         | OSError err =>
             Some (print (MsgOSErrorMoving entry err) ;; mret summary)
         | _ => None
         end).

Fixpoint organize_loop (base_path : path) (entries : list string)
    (summary : dict) : M dict :=
  match entries with
  | [] => mret summary
  | entry :: rest =>
      summary' ← organize_entry base_path summary entry;
      organize_loop base_path rest summary'
  end.

Definition organize_files (base_path : path) : M dict :=
  entries ← os_listdir base_path;
  organize_loop base_path entries initial_summary.

(** ** Output helpers *)

Fixpoint print_rows (items : dict) : M unit :=
  match items with
  | [] => mret tt
  | (category, count) :: rest =>
      (if decide (0 < count) then print (MsgRow category count) else mret tt) ;;
      print_rows rest
  end.

Definition print_summary (summary : dict) : M unit :=
  let total := dict_total summary in
  if decide (total = 0) then print MsgAlreadyClean
  else
    let cat_width := max_list (String.length <$> summary.*1) + 2 in
    let count_width := 8 in
    print (MsgTitle (cat_width + count_width + 3)) ;;
    print (MsgBorder cat_width count_width) ;;
    print (MsgHeader cat_width count_width) ;;
    print (MsgBorder cat_width count_width) ;;
    print_rows summary ;;
    print (MsgBorder cat_width count_width) ;;
    print (MsgTotal total) ;;
    print (MsgBorder cat_width count_width).

(** ** Entry point *)

Definition main (argv : list string) : M unit :=
  match argv with
  | [_; target_path] =>
      target_path ← validate_path target_path;
      print (MsgScanning target_path) ;;
      create_category_folders target_path ;;
      summary ← organize_files target_path;
      print_summary summary ;;
      print MsgDone
  | _ => print MsgUsage ;; sys_exit 1
  end.

End Organizer.

(** ** A concrete host

    A host on which the model runs: path strings are split at ["/"], every
    directory but [/sealed] may be read and written, a directory is listed in
    the order of the finite map, and the only refusals are for entries called
    ["locked.txt"] and ["busy.txt"]. Neither can be renamed. ["locked.txt"]
    can be copied but not removed (permission denied), so a move of it leaves
    a copy; ["busy.txt"] cannot be copied either (another error), and a move
    of it leaves nothing. *)

Module TestHost.

Fixpoint split_go (cur : string) (s : string) : list string :=
  match s with
  | EmptyString => if decide (cur = "") then [] else [String.rev cur]
  | String c s' =>
      if decide (c = "/"%char)
      then (if decide (cur = "") then [] else [String.rev cur]) ++ split_go "" s'
      else split_go (String c cur) s'
  end.

Definition abspath (s : string) : path := split_go "" s.

Definition listdir (f : fs) (p : path) : list string :=
  elements (dir_entries f p).

Definition fault (f : fs) (src dst : path) : option os_error :=
  if decide (basename src = "locked.txt") then Some PermissionError
  else if decide (basename src = "busy.txt") then Some OtherOSError
  else None.

Definition no_copy (f : fs) (src dst : path) : option (os_error * bool) :=
  if decide (basename src = "busy.txt") then Some (OtherOSError, false)
  else None.

Definition no_unlink (f : fs) (src : path) : option os_error :=
  if decide (basename src = "locked.txt") then Some PermissionError
  else None.

Definition host : Host := {|
  os_path_abspath := abspath;
  access_rw := λ _ p, bool_decide (p ≠ ["sealed"]);
  listdir_order := listdir;
  listdir_fault := λ _ _, None;
  mkdir_fault := λ _ _, None;
  rename_fault := fault;
  copy_fault := no_copy;
  unlink_fault := no_unlink;
|}.

(** The directory of the second scenario of the specification, with two
    entries the host refuses to move. *)
Definition downloads : fs :=
  list_to_map
    [ ([], Dir); (["home"], Dir);
      (["home"; "photo.JPG"], File); (["home"; "notes.txt"], File);
      (["home"; "archive.zip"], File); (["home"; ".DS_Store"], File);
      (["home"; "locked.txt"], File); (["home"; "busy.txt"], File);
      (["home"; "sub"], Dir); (["home"; "sub"; "inner.py"], File);
      (["home"; ".git"], Dir); (["sealed"], Dir) ].

Definition start : world := World downloads [].

(** The directory of the third scenario: the category folders are there,
    and [photo.jpg] is both in the base directory and in [Images]. *)
Definition pictures : fs :=
  list_to_map
    [ ([], Dir); (["pics"], Dir);
      (["pics"; "Images"], Dir); (["pics"; "Videos"], Dir);
      (["pics"; "PDFs"], Dir); (["pics"; "Documents"], Dir);
      (["pics"; "Code"], Dir); (["pics"; "Others"], Dir);
      (["pics"; "Images"; "photo.jpg"], File);
      (["pics"; "photo.jpg"], File); (["pics"; "notes.txt"], File);
      (["pics"; ".hidden"], File) ].

End TestHost.

(** ** The classifier as the specification words it

    A second classifier, written after the words of the specification and
    not after the code, to compare [get_category] with: the extension of a
    name is the substring from its last ["."] to its end, and is absent when
    the name has no ["."]; the label is the table's entry for the lower-cased
    extension, and ["Others"] when there is none. *)

Definition spec_extension (filename : string) : string :=
  let i := PyStr.rfind "." filename in
  if (i <? 0)%Z then "" else PyStr.drop (Z.to_nat i) filename.

Definition classify_spec (filename : string) : string :=
  default "Others" (EXTENSION_MAP !! PyStr.lower (spec_extension filename)).

(** [c in s] for a one-character [c], and [s.lstrip(".")]. *)
Fixpoint str_mem (c : ascii) (s : string) : bool :=
  match s with
  | EmptyString => false
  | String a s' => bool_decide (a = c) || str_mem c s'
  end.

Fixpoint strip_dots (s : string) : string :=
  match s with
  | String a s' => if bool_decide (a = "."%char) then strip_dots s' else s
  | EmptyString => EmptyString
  end.

(** The name [f"{name}_{counter}{ext}"] the loop builds. *)
Definition candidate (name ext : string) (counter : nat) : string :=
  name +:+ "_" +:+ pretty counter +:+ ext.

(** ** What a run of the loop is observed by

    The line printed for a move that failed with [err], the number of such
    lines in an output, and the entries of a directory that are not
    directories, hidden or not. *)

Definition report (entry : string) (err : os_error) : message :=
  match err with
  | PermissionError => MsgPermissionDenied entry
  | _ => MsgOSErrorMoving entry err
  end.

Definition is_failure_report (m : message) : bool :=
  match m with
  | MsgPermissionDenied _ | MsgOSErrorMoving _ _ => true
  | _ => false
  end.

Definition failed_count (out : list message) : nat :=
  length (List.filter is_failure_report out).

Definition non_directory (f : fs) (base_path : path) (entry : string) : bool :=
  negb (path_isdir f (base_path ++ [entry])).

Definition non_directory_entries (f : fs) (base_path : path) : gset string :=
  filter (λ n, non_directory f base_path n = true) (dir_entries f base_path).

Definition skipped_hidden_entries (f : fs) (base_path : path) : gset string :=
  filter (λ n, is_hidden_or_system n = true) (non_directory_entries f base_path).

(** The entries of [entries] that were in [base_path] in [f] and are no longer
    there in [f']: the entries a run from [f] to [f'] has moved. *)
Definition moved_entries (f f' : fs) (base_path : path)
    (entries : list string) : list string :=
  List.filter
    (λ n, path_exists f (base_path ++ [n])
          && negb (path_exists f' (base_path ++ [n])))
    entries.

(** One turn of the loop on [entry], from a summary and a world to the next:
    the entry is a directory or hidden and nothing changes; or it is moved
    to a free path of its category folder and its category counts one more;
    or the move fails and one line reports it, the entry staying where it is,
    with nothing else changed or with a copy of it left at a free path of its
    category folder. *)
Inductive entry_step (base_path : path) (entry : string)
    : dict → world → dict → world → Prop :=
  | step_directory summary w :
      path_isdir (files w) (base_path ++ [entry]) = true →
      entry_step base_path entry summary w summary w
  | step_hidden summary w :
      path_isdir (files w) (base_path ++ [entry]) = false →
      is_hidden_or_system entry = true →
      entry_step base_path entry summary w summary w
  | step_moved summary w k leaf n :
      path_isdir (files w) (base_path ++ [entry]) = false →
      is_hidden_or_system entry = false →
      files w !! (base_path ++ [entry]) = Some k →
      files w !! (base_path ++ [get_category entry; leaf]) = None →
      dict_get summary (get_category entry) = Some n →
      entry_step base_path entry summary w
        (dict_set summary (get_category entry) (n + 1))
        (World (<[base_path ++ [get_category entry; leaf] := k]>
                  (delete (base_path ++ [entry]) (files w)))
               (stdout w))
  | step_failed summary w err :
      path_isdir (files w) (base_path ++ [entry]) = false →
      is_hidden_or_system entry = false →
      entry_step base_path entry summary w summary
        (World (files w) (stdout w ++ [report entry err]))
  | step_failed_copy summary w err k leaf :
      path_isdir (files w) (base_path ++ [entry]) = false →
      is_hidden_or_system entry = false →
      files w !! (base_path ++ [entry]) = Some k →
      files w !! (base_path ++ [get_category entry; leaf]) = None →
      entry_step base_path entry summary w summary
        (World (<[base_path ++ [get_category entry; leaf] := k]> (files w))
               (stdout w ++ [report entry err])).

(** The turns of the loop over a list of entries. *)
Inductive loop_steps (base_path : path)
    : list string → dict → world → dict → world → Prop :=
  | steps_nil summary w : loop_steps base_path [] summary w summary w
  | steps_cons entry rest summary w summary1 w1 summary2 w2 :
      entry_step base_path entry summary w summary1 w1 →
      loop_steps base_path rest summary1 w1 summary2 w2 →
      loop_steps base_path (entry :: rest) summary w summary2 w2.

(** ** Further observations on names

    [s] has a character other than ["."]. *)
Fixpoint has_nondot (s : string) : bool :=
  match s with
  | EmptyString => false
  | String a s' => negb (bool_decide (a = "."%char)) || has_nondot s'
  end.

(** A row of [EXTENSION_MAP] as [get_category] needs it: the key is a dot
    followed by a text without dot or separator, and is in lower case. *)
Definition table_key_ok (ext : string) : bool :=
  match ext with
  | String c e =>
      bool_decide (c = "."%char)
      && negb (str_mem "." e) && negb (str_mem "/" e)
      && bool_decide (PyStr.lower ext = ext)
  | EmptyString => false
  end.

(** ** Further observations on runs

    [f'] is [f] with some folders of [base_path] added: every path has kept
    what it held, or was free and now holds a directory directly under
    [base_path] whose name is one of [names]. *)
Definition folders_added (base_path : path) (names : list string)
    (f f' : fs) : Prop :=
  ∀ p : path,
    f' !! p = f !! p
    ∨ (f !! p = None ∧ f' !! p = Some Dir
       ∧ ∃ name, name ∈ names ∧ p = base_path ++ [name]).

(** The rows [print_summary] prints for a summary: one for each category
    with a count above zero, in the order of the dictionary. *)
Definition summary_rows (summary : dict) : list message :=
  (λ item : string * nat, MsgRow item.1 item.2)
    <$> List.filter (λ item : string * nat, bool_decide (0 < item.2)) summary.

(** The count a printed line carries, when it is a row. *)
Definition row_count (m : message) : nat :=
  match m with
  | MsgRow _ count => count
  | _ => 0
  end.

(** A directory in which the name of a category is held by a file. *)
Definition blocked_inbox : fs :=
  list_to_map
    [ ([], Dir); (["inbox"], Dir);
      (["inbox"; "Videos"], File); (["inbox"; "clip.mp4"], File) ].


(** * Theorems *)

(** ** Strings *)

Section StringFacts.

Import PyStr.

Lemma rfind_from_shift c s i last :
  rfind_from c s i last =
    if (rfind c s <? 0)%Z then last else (i + rfind c s)%Z.
Proof.
  unfold rfind. revert i last.
  induction s as [|a s IH]; intros i last; simpl; [done|].
  rewrite (IH (i + 1)%Z), (IH 1%Z).
  destruct (rfind_from c s 0 (-1) <? 0)%Z eqn:E.
  - case_bool_decide; simpl; [|done].
    replace (0 <? 0)%Z with false by done. lia.
  - apply Z.ltb_ge in E.
    destruct (1 + rfind_from c s 0 (-1) <? 0)%Z eqn:E'; [lia|]. lia.
Qed.

Lemma rfind_cons c a s :
  rfind c (String a s) =
    if (rfind c s <? 0)%Z
    then (if bool_decide (a = c) then 0 else -1)%Z
    else (1 + rfind c s)%Z.
Proof. unfold rfind at 1. simpl. by rewrite rfind_from_shift. Qed.

Lemma rfind_lower c s : (-1 ≤ rfind c s)%Z.
Proof.
  induction s as [|a s IH]; [done|].
  rewrite rfind_cons. destruct (rfind c s <? 0)%Z eqn:E.
  - case_bool_decide; lia.
  - lia.
Qed.

Lemma rfind_mem c s : (rfind c s <? 0)%Z = negb (str_mem c s).
Proof.
  induction s as [|a s IH]; [done|].
  rewrite rfind_cons. simpl. pose proof (rfind_lower c s).
  destruct (rfind c s <? 0)%Z eqn:E.
  - destruct (str_mem c s); [done|]. rewrite orb_false_r.
    by case_bool_decide.
  - apply Z.ltb_ge in E. destruct (str_mem c s); [|done].
    rewrite orb_true_r. apply Z.ltb_ge. lia.
Qed.

Lemma rfind_absent c s : str_mem c s = false → rfind c s = (-1)%Z.
Proof.
  intros Hm. pose proof (rfind_lower c s) as Hl.
  pose proof (rfind_mem c s) as Hr. rewrite Hm in Hr.
  apply Z.ltb_lt in Hr. lia.
Qed.

Lemma scan_dots_cons a p i n :
  (0 ≤ i)%Z → scan_dots (String a p) (i + 1) n = scan_dots p i n.
Proof.
  revert i. induction n as [|n IH]; intros i Hi; simpl; [done|].
  rewrite IH by lia. unfold not_dot_at.
  replace (Z.to_nat (i + 1)) with (S (Z.to_nat i)) by lia. done.
Qed.

(** The test of [splitext] on a name without separator: an extension is
    split off exactly when a dot follows the first character that is not a
    dot. *)
Lemma splitext_test p :
  (-1 <? rfind "." p)%Z && scan_dots p 0 (Z.to_nat (rfind "." p))
  = str_mem "." (strip_dots p).
Proof.
  induction p as [|a p IH]; [done|].
  rewrite rfind_cons. pose proof (rfind_lower "." p) as Hl.
  pose proof (rfind_mem "." p) as Hm. simpl strip_dots.
  destruct (rfind "." p <? 0)%Z eqn:E.
  - apply Z.ltb_lt in E. assert (rfind "." p = (-1)%Z) as Hr by lia.
    rewrite Hr in IH. simpl in IH.
    symmetry in Hm. apply negb_true_iff in Hm.
    case_bool_decide as Ha; simpl.
    + rewrite <- IH. done.
    + rewrite Hm, orb_false_r. symmetry. by apply bool_decide_eq_false.
  - apply Z.ltb_ge in E. symmetry in Hm. apply negb_false_iff in Hm.
    replace (-1 <? 1 + rfind "." p)%Z with true by (symmetry; apply Z.ltb_lt; lia).
    replace (Z.to_nat (1 + rfind "." p)) with (S (Z.to_nat (rfind "." p))) by lia.
    simpl. unfold not_dot_at at 1. simpl.
    case_bool_decide as Ha; simpl.
    + rewrite (scan_dots_cons a p 0) by lia. rewrite <- IH.
      replace (-1 <? rfind "." p)%Z with true by (symmetry; apply Z.ltb_lt; lia).
      done.
    + by rewrite Hm, orb_true_r.
Qed.

Lemma splitext_ext_no_sep p :
  str_mem "/" p = false →
  (splitext p).2 =
    if str_mem "." (strip_dots p) then spec_extension p else "".
Proof.
  intros Hsep. unfold splitext. rewrite (rfind_absent "/" p Hsep).
  replace (-1 + 1)%Z with 0%Z by done. rewrite Z.sub_0_r, splitext_test.
  destruct (str_mem "." (strip_dots p)) eqn:E; [|done]. simpl.
  unfold spec_extension.
  pose proof (splitext_test p) as Ht. rewrite E in Ht.
  apply andb_true_iff in Ht as [Ht _]. apply Z.ltb_lt in Ht.
  destruct (rfind "." p <? 0)%Z eqn:E'; [apply Z.ltb_lt in E'; lia|done].
Qed.

Lemma get_category_ext filename :
  get_category filename
  = default "Others" (EXTENSION_MAP !! lower (splitext filename).2).
Proof. unfold get_category. by destruct (splitext filename). Qed.

End StringFacts.

Lemma EXTENSION_MAP_values (ext category : string) :
  EXTENSION_MAP !! ext = Some category → category ∈ CATEGORIES.
Proof.
  intros Hl. apply elem_of_list_to_map_2 in Hl.
  assert (Forall (λ kv : string * string, kv.2 ∈ CATEGORIES) EXTENSION_TABLE)
    as Hall.
  { apply (bool_decide_unpack _). vm_compute. exact I. }
  rewrite Forall_forall in Hall. apply (Hall _ Hl).
Qed.

Lemma get_category_in (filename : string) : get_category filename ∈ CATEGORIES.
Proof.
  rewrite get_category_ext.
  destruct (EXTENSION_MAP !! _) as [category|] eqn:E; simpl.
  - by eapply EXTENSION_MAP_values.
  - apply (bool_decide_unpack _). vm_compute. exact I.
Qed.

(** ** Classification *)

(** C3. For every filename, [get_category] yields one label, and that label
    is one of the six names of [CATEGORIES]; being a total function of the
    filename it has no failing input. *)
Theorem get_category_total (filename : string) :
  ∃ label : string,
    get_category filename = label
    ∧ label ∈ CATEGORIES
    ∧ ∀ label' : string, get_category filename = label' → label' = label.
Proof.
  exists (get_category filename). split; [done|]. split.
  - apply get_category_in.
  - by intros label' <-.
Qed.

(** C6, as the specification words it, fails on [".py"]: the substring from
    the last dot is [".py"], a key of the table with label ["Code"], while
    [get_category] answers ["Others"]. *)
Lemma classify_spec_dotpy_differs :
  spec_extension ".py" = ".py"
  ∧ classify_spec ".py" = "Code"
  ∧ get_category ".py" = "Others"
  ∧ get_category ".py" ≠ classify_spec ".py".
Proof. repeat split; vm_compute; (reflexivity || discriminate). Qed.

(** C6, amended. For every filename without path separator: when a dot
    follows the first character that is not a dot, the extension is the
    substring from the last dot to the end, it is looked up in lower case,
    and the label is ["Others"] when the table does not have it; in every
    other case (no dot, or nothing but dots before the last one) the label is
    ["Others"]. *)
Theorem get_category_extension (filename : string) :
  str_mem "/" filename = false →
  get_category filename =
    if str_mem "." (strip_dots filename)
    then classify_spec filename
    else "Others".
Proof.
  intros Hsep. rewrite get_category_ext, (splitext_ext_no_sep _ Hsep).
  by destruct (str_mem "." (strip_dots filename)).
Qed.

Lemma get_category_extension_witness :
  str_mem "/" "photo.JPG" = false
  ∧ str_mem "." (strip_dots "photo.JPG") = true
  ∧ spec_extension "photo.JPG" = ".JPG"
  ∧ get_category "photo.JPG" =
      (if str_mem "." (strip_dots "photo.JPG")
       then classify_spec "photo.JPG"
       else "Others").
Proof.
  split; [reflexivity|]. split; [reflexivity|]. split; [reflexivity|].
  apply (get_category_extension "photo.JPG"). reflexivity.
Defined.

(** C10. A filename made of a dot followed by a text without any dot is
    split into itself and an empty extension, so its label is ["Others"],
    whatever the text after the dot is. *)
Theorem get_category_dotfile (rest : string) :
  str_mem "." rest = false →
  PyStr.splitext (String "." rest) = (String "." rest, "")
  ∧ get_category (String "." rest) = "Others".
Proof.
  intros Hdot.
  assert (PyStr.splitext (String "." rest) = (String "." rest, "")) as Hs.
  { unfold PyStr.splitext.
    assert (PyStr.rfind "." (String "." rest) = 0%Z) as ->.
    { rewrite rfind_cons, (rfind_absent _ _ Hdot). done. }
    pose proof (rfind_lower "/" (String "." rest)) as Hl.
    destruct (PyStr.rfind "/" (String "." rest) <? 0)%Z eqn:E; [|done].
    apply Z.ltb_lt in E.
    replace (PyStr.rfind "/" (String "." rest)) with (-1)%Z by lia.
    done. }
  split; [done|]. unfold get_category. rewrite Hs. done.
Qed.

Lemma get_category_dotfile_witness :
  str_mem "." "py" = false
  ∧ EXTENSION_MAP !! ".py" = Some "Code"
  ∧ PyStr.splitext ".py" = (".py", "")
  ∧ get_category ".py" = "Others".
Proof.
  split; [reflexivity|]. split; [vm_compute; reflexivity|].
  apply (get_category_dotfile "py"). reflexivity.
Defined.

(** ** Duplicate resolution *)

Section Resolve.

Lemma string_length_app (s t : string) :
  String.length (s +:+ t) = String.length s + String.length t.
Proof. induction s as [|a s IH]; simpl; [done|]. by rewrite IH. Qed.

Lemma string_app_inj_r (s1 s2 t : string) : s1 +:+ t = s2 +:+ t → s1 = s2.
Proof.
  revert s2. induction s1 as [|a s1 IH]; intros [|b s2] Heq; simpl in *.
  - done.
  - apply (f_equal String.length) in Heq.
    rewrite ?string_length_app in Heq. simpl in Heq.
    rewrite ?string_length_app in Heq. lia.
  - apply (f_equal String.length) in Heq.
    rewrite ?string_length_app in Heq. simpl in Heq.
    rewrite ?string_length_app in Heq. lia.
  - injection Heq as -> Heq. f_equal. by apply IH.
Qed.

Lemma candidate_inj (name ext : string) (j k : nat) :
  candidate name ext j = candidate name ext k → j = k.
Proof.
  unfold candidate. intros Heq.
  apply String.app_inj in Heq.
  apply String.app_inj in Heq.
  apply string_app_inj_r in Heq.
  by apply pretty_nat_inj in Heq.
Qed.

Lemma candidate_path_inj (folder : path) (name ext : string) :
  Inj (=) (=) (λ k : nat, folder ++ [candidate name ext k]).
Proof.
  intros j k Heq. apply app_inv_head in Heq.
  injection Heq as Heq. by eapply candidate_inj.
Qed.

(** Among the first [size f + 1] candidates one is not in [f]. *)
Lemma candidate_free (f : fs) (folder : path) (name ext : string) (c : nat) :
  ∃ m : nat, m ≤ size f
    ∧ path_exists f (folder ++ [candidate name ext (c + m)]) = false.
Proof.
  destruct (decide (Forall (λ m, path_exists f
      (folder ++ [candidate name ext (c + m)]) = true) (seq 0 (S (size f)))))
    as [Hall|Hex].
  - exfalso.
    set (l := (λ m, folder ++ [candidate name ext (c + m)]) <$> seq 0 (S (size f))).
    assert (NoDup l) as Hnd.
    { apply NoDup_fmap_2_strong; [|apply NoDup_seq].
      intros j k _ _ Heq. apply candidate_path_inj in Heq. lia. }
    assert (list_to_set l ⊆ dom f) as Hsub.
    { intros p Hp. apply elem_of_list_to_set in Hp.
      apply list_elem_of_fmap in Hp as (m & -> & Hm).
      rewrite Forall_forall in Hall. specialize (Hall m Hm).
      apply bool_decide_eq_true in Hall. by apply elem_of_dom. }
    apply subseteq_size in Hsub.
    rewrite size_list_to_set, size_dom in Hsub by done.
    unfold l in Hsub. rewrite length_fmap, length_seq in Hsub. lia.
  - apply not_Forall_Exists in Hex; [|apply _].
    apply Exists_exists in Hex as (m & Hm & Hfree).
    apply elem_of_seq in Hm. exists m. split; [lia|].
    by apply not_true_is_false.
Qed.

(** A boolean predicate that fails at some index below a bound has a least
    index at which it fails. *)
Lemma least_false (e : nat → bool) (bound : nat) :
  (∃ m, m ≤ bound ∧ e m = false) →
  ∃ n, n ≤ bound ∧ e n = false ∧ ∀ j, j < n → e j = true.
Proof.
  assert ((∀ j, j ≤ bound → e j = true)
          ∨ ∃ n, n ≤ bound ∧ e n = false ∧ ∀ j, j < n → e j = true) as Hcases.
  { induction bound as [|bound IH].
    - destruct (e 0) eqn:E0.
      + left. intros j Hj. by replace j with 0 by lia.
      + right. exists 0. split; [lia|]. split; [done|]. intros j Hj. lia.
    - destruct IH as [Hall|(n & Hn & Hen & Hmin)].
      + destruct (e (S bound)) eqn:ES.
        * left. intros j Hj.
          destruct (decide (j = S bound)) as [->|Hne]; [done|].
          apply Hall. lia.
        * right. exists (S bound). split; [lia|]. split; [done|].
          intros j Hj. apply Hall. lia.
      + right. exists n. split; [lia|]. by split. }
  intros (m & Hm & Hem). destruct Hcases as [Hall|Hleast]; [|done].
  rewrite (Hall m Hm) in Hem. done.
Qed.

Lemma resolve_loop_steps (f : fs) (folder : path) (name ext : string)
    (n : nat) :
  ∀ (c fuel : nat) (dest : path),
    path_exists f dest = true →
    (∀ j, j < n → path_exists f (folder ++ [candidate name ext (c + j)]) = true) →
    path_exists f (folder ++ [candidate name ext (c + n)]) = false →
    n + 2 ≤ fuel →
    resolve_loop f fuel folder name ext dest c
    = Some (folder ++ [candidate name ext (c + n)]).
Proof.
  induction n as [|n IH]; intros c fuel dest Hdest Hbusy Hfree Hfuel.
  - destruct fuel as [|[|fuel]]; [lia|lia|].
    cbn [resolve_loop]. rewrite Hdest.
    change (name +:+ "_" +:+ pretty c +:+ ext) with (candidate name ext c).
    rewrite Nat.add_0_r in *. by rewrite Hfree.
  - destruct fuel as [|fuel]; [lia|].
    cbn [resolve_loop]. rewrite Hdest.
    change (name +:+ "_" +:+ pretty c +:+ ext) with (candidate name ext c).
    replace (c + S n) with (c + 1 + n) in * by lia.
    apply IH; [| |done|lia].
    + specialize (Hbusy 0). rewrite Nat.add_0_r in Hbusy. apply Hbusy. lia.
    + intros j Hj. replace (c + 1 + j) with (c + S j) by lia.
      apply Hbusy. lia.
Qed.

(** With fewer steps than there are taken names to pass, the loop has not
    finished. *)
Lemma resolve_loop_short (f : fs) (folder : path) (name ext : string)
    (n : nat) :
  ∀ (c fuel : nat) (dest : path),
    path_exists f dest = true →
    (∀ j, j < n → path_exists f (folder ++ [candidate name ext (c + j)]) = true) →
    fuel ≤ n + 1 →
    resolve_loop f fuel folder name ext dest c = None.
Proof.
  induction n as [|n IH]; intros c fuel dest Hdest Hbusy Hfuel.
  - destruct fuel as [|[|fuel]]; [done| |lia].
    cbn [resolve_loop]. by rewrite Hdest.
  - destruct fuel as [|fuel]; [done|].
    cbn [resolve_loop]. rewrite Hdest.
    change (name +:+ "_" +:+ pretty c +:+ ext) with (candidate name ext c).
    apply IH; [| |lia].
    + specialize (Hbusy 0). rewrite Nat.add_0_r in Hbusy. apply Hbusy. lia.
    + intros j Hj. replace (c + 1 + j) with (c + S j) by lia.
      apply Hbusy. lia.
Qed.

(** What [resolve_duplicate] computes, for every amount of fuel above the
    size of the file system. *)
Lemma resolve_duplicate_fuel_spec (f : fs) (folder : path)
    (filename : string) :
  ∃ dest : path,
    (∀ extra, resolve_duplicate_fuel (size f + 2 + extra) f folder filename
              = Some dest)
    ∧ path_exists f dest = false
    ∧ if path_exists f (folder ++ [filename])
      then ∃ k : nat,
             1 ≤ k ≤ size f + 1
             ∧ dest = folder ++ [candidate (PyStr.splitext filename).1
                                   (PyStr.splitext filename).2 k]
             ∧ ∀ j, 1 ≤ j < k →
                 path_exists f
                   (folder ++ [candidate (PyStr.splitext filename).1
                                 (PyStr.splitext filename).2 j]) = true
      else dest = folder ++ [filename].
Proof.
  unfold resolve_duplicate_fuel.
  destruct (path_exists f (folder ++ [filename])) eqn:Hdirect; simpl.
  - destruct (PyStr.splitext filename) as [name ext]. simpl.
    destruct (least_false
                (λ m, path_exists f (folder ++ [candidate name ext (1 + m)]))
                (size f) (candidate_free f folder name ext 1))
      as (n & Hn & Hfree & Hbusy).
    exists (folder ++ [candidate name ext (1 + n)]). split; [|split; [done|]].
    + intros extra. apply resolve_loop_steps; [done|done|done|lia].
    + exists (1 + n). split; [lia|]. split; [done|].
      intros j Hj. replace j with (1 + (j - 1)) by lia. apply Hbusy. lia.
  - exists (folder ++ [filename]). done.
Qed.

Lemma resolve_duplicate_returns (folder : path) (filename : string) (w : world) :
  ∃ leaf : string,
    resolve_duplicate folder filename w = (Return (folder ++ [leaf]), w)
    ∧ path_exists (files w) (folder ++ [leaf]) = false.
Proof.
  destruct (resolve_duplicate_fuel_spec (files w) folder filename)
    as (dest & Hfuel & Hfree & Hshape).
  unfold resolve_duplicate.
  specialize (Hfuel 0). rewrite Nat.add_0_r in Hfuel. rewrite Hfuel.
  destruct (path_exists (files w) (folder ++ [filename])).
  - destruct Hshape as (k & _ & -> & _). by eexists.
  - subst dest. by eexists.
Qed.

End Resolve.

(** C4. When [destination_folder/filename] does not exist, [resolve_duplicate]
    returns it; otherwise it returns [destination_folder/name_k ext], where
    [(name, ext)] is the split of [filename] and [k], at least 1, is the least
    counter whose candidate does not exist: every candidate of a smaller
    counter exists. The file system and the output are left as they were. *)
Theorem resolve_duplicate_first_free (destination_folder : path)
    (filename : string) (w : world) :
  if path_exists (files w) (destination_folder ++ [filename])
  then
    ∃ k : nat,
      1 ≤ k
      ∧ resolve_duplicate destination_folder filename w
        = (Return (destination_folder
                     ++ [candidate (PyStr.splitext filename).1
                           (PyStr.splitext filename).2 k]), w)
      ∧ path_exists (files w)
          (destination_folder
             ++ [candidate (PyStr.splitext filename).1
                   (PyStr.splitext filename).2 k]) = false
      ∧ ∀ j : nat, 1 ≤ j < k →
          path_exists (files w)
            (destination_folder
               ++ [candidate (PyStr.splitext filename).1
                     (PyStr.splitext filename).2 j]) = true
  else
    resolve_duplicate destination_folder filename w
    = (Return (destination_folder ++ [filename]), w).
Proof.
  destruct (resolve_duplicate_fuel_spec (files w) destination_folder filename)
    as (dest & Hfuel & Hfree & Hshape).
  specialize (Hfuel 0). rewrite Nat.add_0_r in Hfuel.
  unfold resolve_duplicate. rewrite Hfuel.
  destruct (path_exists (files w) (destination_folder ++ [filename])).
  - destruct Hshape as (k & Hk & -> & Hbusy).
    exists k. split; [lia|]. by split.
  - by subst dest.
Qed.

(** C9. The candidate names of distinct counters are distinct, and so are
    their paths in the destination folder; hence the loop of
    [resolve_duplicate] ends, at a path that does not exist: with
    [size f + 2] steps or more it yields a path, the same whatever the
    number of steps above that bound; nothing exists at that path; when the
    direct path is free it is that path, and otherwise it is the candidate
    of a counter [k] between 1 and [size f + 1], every candidate of a
    smaller counter exists, and the loop has not finished with [k] steps or
    fewer; and the call returns that path. *)
Theorem resolve_duplicate_terminates (f : fs) (destination_folder : path)
    (filename : string) :
  (∀ (name ext : string) (j k : nat),
     destination_folder ++ [candidate name ext j]
     = destination_folder ++ [candidate name ext k] → j = k)
  ∧ ∃ dest : path,
      (∀ extra : nat,
         resolve_duplicate_fuel (size f + 2 + extra) f destination_folder filename
         = Some dest)
      ∧ path_exists f dest = false
      ∧ (if path_exists f (destination_folder ++ [filename])
         then
           ∃ k : nat,
             1 ≤ k ≤ size f + 1
             ∧ dest = destination_folder
                        ++ [candidate (PyStr.splitext filename).1
                              (PyStr.splitext filename).2 k]
             ∧ (∀ j : nat, 1 ≤ j < k →
                  path_exists f
                    (destination_folder
                       ++ [candidate (PyStr.splitext filename).1
                             (PyStr.splitext filename).2 j]) = true)
             ∧ (∀ fuel : nat, fuel ≤ k →
                  resolve_duplicate_fuel fuel f destination_folder filename
                  = None)
         else dest = destination_folder ++ [filename])
      ∧ ∀ out : list message,
          resolve_duplicate destination_folder filename (World f out)
          = (Return dest, World f out).
Proof.
  split.
  - intros name ext j k Heq. by eapply candidate_path_inj.
  - destruct (resolve_duplicate_fuel_spec f destination_folder filename)
      as (dest & Hfuel & Hfree & Hshape).
    exists dest. split; [done|]. split; [done|]. split.
    + destruct (path_exists f (destination_folder ++ [filename])) eqn:Hdirect;
        [|done].
      destruct Hshape as (k & Hk & -> & Hbusy).
      exists k. split; [done|]. split; [done|]. split; [done|].
      intros fuel Hle. unfold resolve_duplicate_fuel. rewrite Hdirect. simpl.
      destruct (PyStr.splitext filename) as [name ext]. simpl in *.
      apply (resolve_loop_short f destination_folder name ext (k - 1));
        [done| |lia].
      intros j Hj. apply Hbusy. lia.
    + intros out. unfold resolve_duplicate. simpl.
      specialize (Hfuel 0). rewrite Nat.add_0_r in Hfuel. by rewrite Hfuel.
Qed.

(** ** The summary dictionary *)

Section Dict.

Lemma dict_get_is_Some (d : dict) (key : string) :
  is_Some (dict_get d key) ↔ key ∈ d.*1.
Proof.
  induction d as [|[k v] d IH]; simpl.
  - split; [by intros [? ?]|by intros ?%elem_of_nil].
  - case_decide as Hk.
    + subst k. split; [intros _; apply list_elem_of_here|by eexists].
    + rewrite IH. split; [apply list_elem_of_further|].
      intros [?|?]%elem_of_cons; [congruence|done].
Qed.

Lemma dict_set_keys (d : dict) (key : string) (value : nat) :
  is_Some (dict_get d key) → (dict_set d key value).*1 = d.*1.
Proof.
  induction d as [|[k v] d IH]; [by intros [? ?]|].
  cbn [dict_get dict_set]. case_decide; [done|]. intros Hs.
  rewrite !fmap_cons. f_equal. by apply IH.
Qed.

Lemma dict_get_set (d : dict) (key key' : string) (value : nat) :
  dict_get (dict_set d key value) key'
  = if decide (key = key') then Some value else dict_get d key'.
Proof.
  induction d as [|[k v] d IH]; simpl.
  - by destruct (decide (key = key')).
  - destruct (decide (k = key)) as [->|Hk]; simpl.
    + by destruct (decide (key = key')).
    + rewrite IH. destruct (decide (k = key')) as [->|Hk'].
      * by rewrite decide_False by congruence.
      * done.
Qed.

Lemma dict_total_set (d : dict) (key : string) (n : nat) :
  dict_get d key = Some n →
  dict_total (dict_set d key (n + 1)) = dict_total d + 1.
Proof.
  unfold dict_total. induction d as [|[k v] d IH]; [done|].
  cbn [dict_get dict_set]. case_decide.
  - intros [= ->]. rewrite !fmap_cons. simpl. lia.
  - intros Hg. rewrite !fmap_cons. cbn [sum_list snd].
    rewrite (IH Hg). lia.
Qed.

Lemma initial_summary_keys : initial_summary.*1 = CATEGORIES.
Proof. reflexivity. Qed.

Lemma initial_summary_get (category : string) :
  category ∈ CATEGORIES → dict_get initial_summary category = Some 0.
Proof.
  intros Hc. unfold CATEGORIES in Hc.
  repeat (apply elem_of_cons in Hc as [->|Hc]; [reflexivity|]).
  by apply elem_of_nil in Hc.
Qed.

End Dict.

(** ** One turn of the loop *)

Section Steps.

Context `{H : Host}.

Lemma path_exists_false (f : fs) (p : path) :
  path_exists f p = false ↔ f !! p = None.
Proof.
  unfold path_exists. rewrite bool_decide_eq_false.
  by rewrite <- eq_None_not_Some.
Qed.

Lemma path_isdir_exists (f : fs) (p : path) :
  path_isdir f p = true → path_exists f p = true.
Proof.
  unfold path_isdir, path_exists. intros Hd%bool_decide_eq_true.
  apply bool_decide_eq_true. by eexists.
Qed.

(** [organize_entry] returns, and what it does is one of the four turns. *)
Lemma organize_entry_step (base_path : path) (summary : dict)
    (entry : string) (w : world) :
  is_Some (dict_get summary (get_category entry)) →
  ∃ summary' w',
    organize_entry base_path summary entry w = (Return summary', w')
    ∧ entry_step base_path entry summary w summary' w'.
Proof.
  intros [n Hn]. unfold organize_entry.
  unfold mbind, M_bind, os_path_isdir at 1.
  destruct (path_isdir (files w) (base_path ++ [entry])) eqn:Hd.
  { eexists _, _. split; [done|]. by apply step_directory. }
  destruct (is_hidden_or_system entry) eqn:Hh.
  { eexists _, _. split; [done|]. by apply step_hidden. }
  destruct (resolve_duplicate_returns
              (base_path ++ [get_category entry]) entry w)
    as (leaf & -> & Hfree).
  rewrite <- app_assoc in Hfree. simpl in Hfree. rewrite <- app_assoc. simpl.
  set (dest := base_path ++ [get_category entry; leaf]) in *.
  unfold try_except, shutil_move.
  assert (path_isdir (files w) dest = false) as Hnd.
  { destruct (path_isdir (files w) dest) eqn:E; [|done].
    apply path_isdir_exists in E. congruence. }
  rewrite Hnd. simpl.
  destruct (files w !! (base_path ++ [entry])) as [k|] eqn:Hsrc.
  2:{ eexists _, _. split; [done|].
      by apply (step_failed _ _ _ _ FileNotFoundError). }
  destruct (path_isdir (files w) (dirname dest)) eqn:Hparent; simpl.
  2:{ unfold not_a_directory.
      destruct (path_exists (files w) (dirname dest)).
      - eexists _, _. split; [done|].
        by apply (step_failed _ _ _ _ NotADirectoryError).
      - eexists _, _. split; [done|].
        by apply (step_failed _ _ _ _ FileNotFoundError). }
  apply path_exists_false in Hfree.
  assert (base_path ++ [entry] ≠ dest) as Hne
    by (intros Heq%app_inv_head; discriminate).
  destruct (rename_fault (files w) (base_path ++ [entry]) dest) as [_|].
  2:{ unfold dict_incr. rewrite Hn. eexists _, _. split; [done|].
      by apply step_moved. }
  destruct (copy_fault (files w) (base_path ++ [entry]) dest)
    as [[err [|]]|].
  - exists summary,
      (World (<[dest := k]> (files w)) (stdout w ++ [report entry err])).
    split; [by destruct err|]. by apply step_failed_copy.
  - exists summary, (World (files w) (stdout w ++ [report entry err])).
    split; [by destruct err|]. by apply step_failed.
  - cbn zeta.
    destruct (unlink_fault (<[dest := k]> (files w)) (base_path ++ [entry]))
      as [err|].
    + exists summary,
        (World (<[dest := k]> (files w)) (stdout w ++ [report entry err])).
      split; [by destruct err|]. by apply step_failed_copy.
    + unfold dict_incr. rewrite Hn. simpl.
      rewrite (delete_insert_ne (files w) _ _ k Hne).
      eexists _, _. split; [done|]. by apply step_moved.
Qed.

Lemma organize_loop_steps (base_path : path) (entries : list string) :
  ∀ (summary : dict) (w : world),
    summary.*1 = CATEGORIES →
    ∃ summary' w',
      organize_loop base_path entries summary w = (Return summary', w')
      ∧ loop_steps base_path entries summary w summary' w'
      ∧ summary'.*1 = CATEGORIES.
Proof.
  induction entries as [|entry rest IH]; intros summary w Hkeys.
  - exists summary, w. split; [done|]. split; [constructor|done].
  - assert (is_Some (dict_get summary (get_category entry))) as Hcat.
    { apply dict_get_is_Some. rewrite Hkeys. apply get_category_in. }
    destruct (organize_entry_step base_path summary entry w Hcat)
      as (summary1 & w1 & Hrun & Hstep).
    assert (summary1.*1 = CATEGORIES) as Hkeys1.
    { inversion Hstep; subst; try done.
      rewrite dict_set_keys; [done|by eexists]. }
    destruct (IH summary1 w1 Hkeys1) as (summary2 & w2 & Hrun2 & Hsteps & Hkeys2).
    exists summary2, w2. split; [|split; [|done]].
    + simpl. unfold mbind, M_bind. rewrite Hrun. exact Hrun2.
    + by econstructor.
Qed.

End Steps.

(** ** What the turns leave alone *)

Section Frames.

Lemma root_ne_child (base_path : path) (n category leaf : string) :
  base_path ++ [category; leaf] ≠ base_path ++ [n].
Proof. intros Heq%app_inv_head. discriminate. Qed.

Lemma base_ne_below (base_path rest : path) :
  rest ≠ [] → base_path ++ rest ≠ base_path.
Proof.
  intros Hne Heq. apply (f_equal length) in Heq.
  rewrite length_app in Heq. destruct rest; [done|simpl in Heq; lia].
Qed.

Lemma entry_join_inj (base_path : path) (n m : string) :
  base_path ++ [n] = base_path ++ [m] → n = m.
Proof. intros Heq%app_inv_head. by injection Heq. Qed.

(** A turn on [entry] changes no other entry of the base directory. *)
Lemma entry_step_frame (base_path : path) (entry : string)
    (s s' : dict) (w w' : world) (n : string) :
  entry_step base_path entry s w s' w' →
  n ≠ entry →
  files w' !! (base_path ++ [n]) = files w !! (base_path ++ [n]).
Proof.
  intros Hstep Hne. inversion Hstep; subst; simpl; try done.
  - rewrite lookup_insert_ne by apply root_ne_child.
    apply lookup_delete_ne. intros Heq%entry_join_inj. congruence.
  - by rewrite lookup_insert_ne by apply root_ne_child.
Qed.

Lemma entry_step_base (base_path : path) (entry : string)
    (s s' : dict) (w w' : world) :
  entry_step base_path entry s w s' w' →
  files w' !! base_path = files w !! base_path.
Proof.
  intros Hstep. inversion Hstep; subst; simpl; try done.
  - rewrite lookup_insert_ne by (by apply base_ne_below).
    apply lookup_delete_ne. by apply base_ne_below.
  - by rewrite lookup_insert_ne by (by apply base_ne_below).
Qed.

(** A turn on a hidden entry changes nothing at all. *)
Lemma entry_step_hidden (base_path : path) (entry : string)
    (s s' : dict) (w w' : world) :
  entry_step base_path entry s w s' w' →
  is_hidden_or_system entry = true →
  s' = s ∧ w' = w.
Proof. intros Hstep Hh. inversion Hstep; subst; try done; congruence. Qed.

Lemma loop_steps_frame (base_path : path) (entries : list string)
    (s s' : dict) (w w' : world) (n : string) :
  loop_steps base_path entries s w s' w' →
  n ∉ entries →
  files w' !! (base_path ++ [n]) = files w !! (base_path ++ [n]).
Proof.
  induction 1 as [|entry rest s w s1 w1 s2 w2 Hstep Hloop IH]; [done|].
  intros [Hne Hrest]%not_elem_of_cons.
  rewrite (IH Hrest). by eapply entry_step_frame.
Qed.

Lemma loop_steps_base (base_path : path) (entries : list string)
    (s s' : dict) (w w' : world) :
  loop_steps base_path entries s w s' w' →
  files w' !! base_path = files w !! base_path.
Proof.
  induction 1 as [|entry rest s w s1 w1 s2 w2 Hstep Hloop IH]; [done|].
  rewrite IH. by eapply entry_step_base.
Qed.

Lemma loop_steps_hidden (base_path : path) (entries : list string)
    (s s' : dict) (w w' : world) (n : string) :
  loop_steps base_path entries s w s' w' →
  is_hidden_or_system n = true →
  files w' !! (base_path ++ [n]) = files w !! (base_path ++ [n]).
Proof.
  induction 1 as [|entry rest s w s1 w1 s2 w2 Hstep Hloop IH]; [done|].
  intros Hh. rewrite (IH Hh).
  destruct (decide (n = entry)) as [->|Hne].
  - by destruct (entry_step_hidden _ _ _ _ _ _ Hstep Hh) as [_ ->].
  - by eapply entry_step_frame.
Qed.

(** The output of a turn: nothing, or one report of a failure, and then
    the entry is where it was. *)
Lemma entry_step_stdout (base_path : path) (entry : string)
    (s s' : dict) (w w' : world) :
  entry_step base_path entry s w s' w' →
  failed_count (stdout w') = failed_count (stdout w)
  ∨ (failed_count (stdout w') = failed_count (stdout w) + 1
     ∧ s' = s
     ∧ files w' !! (base_path ++ [entry]) = files w !! (base_path ++ [entry])
     ∧ path_isdir (files w) (base_path ++ [entry]) = false
     ∧ is_hidden_or_system entry = false).
Proof.
  intros Hstep. inversion Hstep; subst; simpl; try (by left).
  - right. unfold failed_count. rewrite List.filter_app, length_app.
    split; [|done]. by destruct err.
  - right. unfold failed_count. rewrite List.filter_app, length_app.
    split; [by destruct err|]. split; [done|]. split; [|done].
    by rewrite lookup_insert_ne by apply root_ne_child.
Qed.

Lemma loop_steps_stdout (base_path : path) (entries : list string)
    (s s' : dict) (w w' : world) :
  loop_steps base_path entries s w s' w' →
  ∃ reports : list message,
    stdout w' = stdout w ++ reports
    ∧ Forall (λ m, is_failure_report m = true) reports.
Proof.
  induction 1 as [s w|entry rest s w s1 w1 s2 w2 Hstep Hloop IH].
  - exists []. by rewrite app_nil_r.
  - destruct IH as (reports & -> & Hall).
    inversion Hstep; subst; simpl; try (by exists reports).
    + exists (report entry err :: reports). split.
      * by rewrite <- app_assoc.
      * apply Forall_cons. split; [by destruct err|done].
    + exists (report entry err :: reports). split.
      * by rewrite <- app_assoc.
      * apply Forall_cons. split; [by destruct err|done].
Qed.

Lemma failed_count_reports (out reports : list message) :
  Forall (λ m, is_failure_report m = true) reports →
  failed_count (out ++ reports) = failed_count out + length reports.
Proof.
  intros Hall. unfold failed_count. rewrite List.filter_app, length_app.
  f_equal. induction Hall as [|m reports Hm _ IH]; [done|].
  simpl. rewrite Hm. simpl. by rewrite IH.
Qed.

End Frames.

(** ** Counting along the loop *)

Section Counting.

Lemma non_directory_frame (base_path : path) (entry : string)
    (s s' : dict) (w w' : world) (rest : list string) :
  entry_step base_path entry s w s' w' →
  entry ∉ rest →
  ∀ P : string → bool,
    List.filter (λ n, non_directory (files w') base_path n && P n) rest
    = List.filter (λ n, non_directory (files w) base_path n && P n) rest.
Proof.
  intros Hstep Hnotin P. apply List.filter_ext_in. intros n Hn.
  apply list_elem_of_In in Hn. unfold non_directory, path_isdir.
  rewrite (entry_step_frame _ _ _ _ _ _ n Hstep); [done|].
  intros ->. done.
Qed.

(** Every entry that is not a directory is counted once: in the summary,
    among the hidden ones, or among the failures. *)
Lemma loop_steps_conservation (base_path : path) (entries : list string)
    (s s' : dict) (w w' : world) :
  loop_steps base_path entries s w s' w' →
  NoDup entries →
  dict_total s'
  + length (List.filter (λ n, non_directory (files w) base_path n
                              && is_hidden_or_system n) entries)
  + failed_count (stdout w')
  = dict_total s + failed_count (stdout w)
    + length (List.filter (λ n, non_directory (files w) base_path n && true)
                entries).
Proof.
  induction 1 as [s w|entry rest s w s1 w1 s2 w2 Hstep Hloop IH].
  - simpl. lia.
  - intros [Hnotin Hnd]%NoDup_cons. specialize (IH Hnd).
    rewrite !(non_directory_frame _ _ _ _ _ _ rest Hstep Hnotin) in IH.
    cbn [List.filter].
    inversion Hstep as [? ? Hd|? ? Hd Hh|? ? k leaf n Hd Hh Hsrc Hdst Hget
                        |? ? err Hd Hh|? ? err k leaf Hd Hh Hsrc Hdst]; subst;
      match goal with
      | Hdir : path_isdir (files ?w0) _ = ?v |- _ =>
          assert (non_directory (files w0) base_path entry = negb v) as ->
            by (unfold non_directory; by rewrite Hdir)
      end; simpl.
    + lia.
    + rewrite Hh. simpl. lia.
    + rewrite Hh. simpl in IH. rewrite (dict_total_set _ _ _ Hget) in IH.
      simpl. lia.
    + rewrite Hh. simpl in IH. unfold failed_count in IH at 2.
      simpl in IH. rewrite List.filter_app, length_app in IH.
      replace (length (List.filter is_failure_report [report entry err]))
        with 1 in IH by (by destruct err).
      fold (failed_count (stdout w)) in IH. simpl. lia.
    + rewrite Hh. simpl in IH. unfold failed_count in IH at 2.
      simpl in IH. rewrite List.filter_app, length_app in IH.
      replace (length (List.filter is_failure_report [report entry err]))
        with 1 in IH by (by destruct err).
      fold (failed_count (stdout w)) in IH. simpl. lia.
Qed.

Lemma moved_entries_frame (base_path : path) (entry : string)
    (s s' : dict) (w w' : world) (f' : fs) (rest : list string) :
  entry_step base_path entry s w s' w' →
  entry ∉ rest →
  moved_entries (files w') f' base_path rest
  = moved_entries (files w) f' base_path rest.
Proof.
  intros Hstep Hnotin. apply List.filter_ext_in. intros n Hn.
  apply list_elem_of_In in Hn. unfold path_exists.
  rewrite (entry_step_frame _ _ _ _ _ _ n Hstep); [done|].
  intros ->. done.
Qed.

(** The count of a category grows by the number of its entries that have
    left the base directory. *)
Lemma loop_steps_counts (base_path : path) (entries : list string)
    (s s' : dict) (w w' : world) (category : string) (n : nat) :
  loop_steps base_path entries s w s' w' →
  NoDup entries →
  dict_get s category = Some n →
  dict_get s' category
  = Some (n + length (List.filter
                        (λ e, bool_decide (get_category e = category))
                        (moved_entries (files w) (files w') base_path entries))).
Proof.
  intros Hloop. revert n.
  induction Hloop as [s w|entry rest s w s1 w1 s2 w2 Hstep Hloop IH];
    intros n Hnd Hget.
  - simpl. by rewrite Nat.add_0_r.
  - apply NoDup_cons in Hnd as [Hnotin Hnd].
    pose proof (loop_steps_frame _ _ _ _ _ _ entry Hloop Hnotin) as Hlater.
    unfold moved_entries. cbn [List.filter]. fold (moved_entries (files w) (files w2) base_path rest).
    rewrite <- (moved_entries_frame _ _ _ _ _ _ (files w2) rest Hstep Hnotin).
    unfold path_exists at 1 2. rewrite Hlater.
    inversion Hstep as [? ? Hd|? ? Hd Hh|? ? k leaf m Hd Hh Hsrc Hdst Hgetc
                        |? ? err Hd Hh|? ? err k leaf Hd Hh Hsrc Hdst]; subst.
    + rewrite (IH n Hnd Hget).
      by destruct (bool_decide (is_Some (files w1 !! (base_path ++ [entry])))).
    + rewrite (IH n Hnd Hget).
      by destruct (bool_decide (is_Some (files w1 !! (base_path ++ [entry])))).
    + simpl. rewrite lookup_insert_ne by apply root_ne_child.
      rewrite lookup_delete_eq, Hsrc.
      rewrite bool_decide_eq_true_2 by (by eexists).
      rewrite (bool_decide_eq_false_2 (is_Some None)) by (by intros [? ?]).
      simpl. case_bool_decide as Hcat; simpl.
      * subst category. rewrite Hgetc in Hget. injection Hget as ->.
        rewrite (IH (n + 1)); [cbn [files]; f_equal; lia|done|].
        rewrite dict_get_set. by rewrite decide_True.
      * rewrite (IH n); [done|done|].
        rewrite dict_get_set. by rewrite decide_False.
    + simpl. rewrite (IH n Hnd Hget). simpl.
      by destruct (bool_decide (is_Some (files w !! (base_path ++ [entry])))).
    + simpl. rewrite lookup_insert_ne by apply root_ne_child.
      rewrite (IH n Hnd Hget). simpl.
      by destruct (bool_decide (is_Some (files w !! (base_path ++ [entry])))).
Qed.

(** The entries of a directory by a listing without repetition. *)
Lemma child_of_join (p : path) (n : string) : child_of p (p ++ [n]) = Some n.
Proof. induction p as [|a p IH]; simpl; [done|]. by rewrite decide_True. Qed.

Lemma child_of_Some (p q : path) (n : string) :
  child_of p q = Some n → q = p ++ [n].
Proof.
  revert q. induction p as [|a p IH]; intros q; simpl.
  - destruct q as [|m [|? ?]]; try done. by intros [= ->].
  - destruct q as [|b q]; [done|]. case_decide; [|done].
    subst b. intros Hc. by rewrite (IH _ Hc).
Qed.

Lemma elem_of_dir_entries (f : fs) (p : path) (n : string) :
  n ∈ dir_entries f p ↔ is_Some (f !! (p ++ [n])).
Proof.
  unfold dir_entries. rewrite elem_of_set_omap. split.
  - intros (q & Hq & Hc). apply child_of_Some in Hc as ->.
    by apply elem_of_dom.
  - intros Hs. exists (p ++ [n]). split; [by apply elem_of_dom|].
    apply child_of_join.
Qed.

Lemma filter_length_size (l : list string) (X : gset string) (P : string → bool) :
  NoDup l → (∀ n, n ∈ l ↔ n ∈ X) →
  length (List.filter P l) = size (filter (λ n, P n = true) X).
Proof.
  intros Hnd Hiff.
  assert (NoDup (List.filter P l)) as Hnd'.
  { apply NoDup_ListNoDup, List.NoDup_filter. by apply NoDup_ListNoDup. }
  rewrite <- (size_list_to_set (C := gset string)) by done.
  f_equal. apply set_eq. intros n.
  rewrite elem_of_list_to_set, elem_of_filter, <- Hiff.
  rewrite list_elem_of_In, List.filter_In, <- list_elem_of_In. tauto.
Qed.

End Counting.

(** ** The helper functions and the loop as a whole *)

Lemma TestHost_laws : HostLaws TestHost.host.
Proof.
  split.
  - intros f p. apply NoDup_elements.
  - intros f p n. simpl. unfold TestHost.listdir.
    rewrite elem_of_elements. apply elem_of_dir_entries.
Qed.

Section Runs.

Context `{H : Host}.

(** What a move that raises leaves: the output as it was, and the file
    system as it was or with a copy of the source at the destination. *)
Lemma shutil_move_raise (src dst : path) (e : exn) (w w' : world) :
  path_isdir (files w) dst = false →
  shutil_move src dst w = (Raise e, w') →
  stdout w' = stdout w
  ∧ (files w' = files w
     ∨ ∃ k, files w !! src = Some k ∧ files w' = <[dst := k]> (files w)).
Proof.
  intros Hnd. unfold shutil_move. rewrite Hnd. simpl.
  destruct (files w !! src) as [k|]; [|intros [= _ <-]; split; [done|by left]].
  destruct (negb (path_isdir (files w) (dirname dst)));
    [intros [= _ <-]; split; [done|by left]|].
  destruct (rename_fault (files w) src dst); [|done].
  destruct (copy_fault (files w) src dst) as [[err [|]]|].
  - intros [= _ <-]. split; [done|]. right. by exists k.
  - intros [= _ <-]. split; [done|]. by left.
  - cbn zeta. destruct (unlink_fault (<[dst := k]> (files w)) src); [|done].
    intros [= _ <-]. split; [done|]. right. by exists k.
Qed.

(** A move that fails: one report, the entry where it was, and nothing
    else changed but, at most, the destination. *)
Lemma organize_entry_move_fails (base_path : path) (summary : dict)
    (entry : string) (w w' : world) (dest : path) (err : os_error) :
  path_isdir (files w) (base_path ++ [entry]) = false →
  is_hidden_or_system entry = false →
  resolve_duplicate (base_path ++ [get_category entry]) entry w
  = (Return dest, w) →
  shutil_move (base_path ++ [entry]) dest w = (Raise (OSError err), w') →
  organize_entry base_path summary entry w
  = (Return summary, World (files w') (stdout w ++ [report entry err]))
  ∧ files w' !! (base_path ++ [entry]) = files w !! (base_path ++ [entry])
  ∧ (∀ p, p ≠ dest → files w' !! p = files w !! p)
  ∧ (files w' = files w
     ∨ ∃ k, files w !! (base_path ++ [entry]) = Some k
            ∧ files w !! dest = None
            ∧ files w' = <[dest := k]> (files w)).
Proof.
  intros Hd Hh Hres Hmove.
  destruct (resolve_duplicate_returns
              (base_path ++ [get_category entry]) entry w)
    as (leaf & Hret & Hfree).
  rewrite Hres in Hret. injection Hret as ->.
  assert (path_isdir (files w) ((base_path ++ [get_category entry]) ++ [leaf])
          = false) as Hnd.
  { apply not_true_is_false. intros E%path_isdir_exists. congruence. }
  destruct (shutil_move_raise _ _ _ _ _ Hnd Hmove) as [Hout Hfiles].
  split; [|split; [|split]].
  - unfold organize_entry, mbind, M_bind, os_path_isdir.
    rewrite Hd, Hh, Hres. unfold try_except. rewrite Hmove.
    destruct err; unfold print; simpl; by rewrite Hout.
  - destruct Hfiles as [->|(k & _ & ->)]; [done|].
    apply lookup_insert_ne. rewrite <- app_assoc.
    intros Heq%app_inv_head. discriminate.
  - intros p Hp. destruct Hfiles as [->|(k & _ & ->)]; [done|].
    by apply lookup_insert_ne.
  - destruct Hfiles as [?|(k & Hsrc & ->)]; [by left|].
    right. exists k. split; [done|]. split; [|done].
    unfold path_exists in Hfree. apply bool_decide_eq_false in Hfree.
    by apply eq_None_not_Some.
Qed.

Lemma organize_entry_skips (base_path : path) (summary : dict)
    (entry : string) (w : world) :
  path_isdir (files w) (base_path ++ [entry]) = true
  ∨ is_hidden_or_system entry = true →
  organize_entry base_path summary entry w = (Return summary, w).
Proof.
  intros Hskip. unfold organize_entry, mbind, M_bind, os_path_isdir.
  destruct (path_isdir (files w) (base_path ++ [entry])); [done|].
  destruct Hskip as [? | ->]; done.
Qed.

Lemma organize_loop_skips (base_path : path) (entries : list string)
    (summary : dict) (w : world) :
  (∀ e, e ∈ entries →
     path_isdir (files w) (base_path ++ [e]) = true
     ∨ is_hidden_or_system e = true) →
  organize_loop base_path entries summary w = (Return summary, w).
Proof.
  induction entries as [|entry rest IH]; intros Hall; [done|].
  simpl. unfold mbind, M_bind.
  rewrite organize_entry_skips by (apply Hall, list_elem_of_here).
  apply IH. intros e He. apply Hall. by apply list_elem_of_further.
Qed.

(** A listing without the entry [n], hidden, gives the same run. *)
Lemma organize_loop_without_hidden (base_path : path) (n : string)
    (entries : list string) :
  is_hidden_or_system n = true →
  ∀ (summary : dict) (w : world),
    organize_loop base_path entries summary w
    = organize_loop base_path
        (List.filter (λ e, negb (bool_decide (e = n))) entries) summary w.
Proof.
  intros Hh. induction entries as [|entry rest IH]; intros summary w; [done|].
  cbn [List.filter]. case_bool_decide as He; simpl.
  - subst entry. unfold mbind, M_bind.
    rewrite organize_entry_skips by (by right). apply IH.
  - unfold mbind, M_bind.
    destruct (organize_entry base_path summary entry w) as [[s1| |] w1];
      [apply IH|done|done].
Qed.

Lemma os_listdir_inv (p : path) (w w' : world) (entries : list string) :
  os_listdir p w = (Return entries, w') →
  w' = w ∧ files w !! p = Some Dir
  ∧ listdir_fault (files w) p = None
  ∧ entries = listdir_order (files w) p.
Proof.
  unfold os_listdir. destruct (files w !! p) as [[|]|]; try done.
  destruct (listdir_fault (files w) p); [done|]. by intros [= <- <-].
Qed.

Lemma os_listdir_returns (p : path) (w : world) :
  files w !! p = Some Dir → listdir_fault (files w) p = None →
  os_listdir p w = (Return (listdir_order (files w) p), w).
Proof. intros Hd Hf. unfold os_listdir. by rewrite Hd, Hf. Qed.

Lemma os_listdir_world (p : path) (w : world) : (os_listdir p w).2 = w.
Proof.
  unfold os_listdir. destruct (files w !! p) as [[|]|]; try done.
  by destruct (listdir_fault (files w) p).
Qed.

(** A run of [organize_files] that has its listing is a run of the loop. *)
Lemma organize_files_steps (base_path : path) (w : world)
    (entries : list string) :
  os_listdir base_path w = (Return entries, w) →
  ∃ summary' w',
    organize_files base_path w = (Return summary', w')
    ∧ loop_steps base_path entries initial_summary w summary' w'
    ∧ summary'.*1 = CATEGORIES.
Proof.
  intros Hlist.
  destruct (organize_loop_steps base_path entries initial_summary w
              initial_summary_keys) as (s' & w' & Hrun & Hsteps & Hkeys).
  exists s', w'. split; [|done].
  unfold organize_files, mbind, M_bind. by rewrite Hlist.
Qed.

Lemma print_rows_returns (items : dict) (w : world) :
  ∃ lines, print_rows items w = (Return tt, World (files w) (stdout w ++ lines)).
Proof.
  revert w. induction items as [|[category count] items IH]; intros w.
  - exists []. simpl. rewrite app_nil_r. by destruct w.
  - simpl. unfold mbind, M_bind. case_decide.
    + unfold print at 1.
      destruct (IH (World (files w) (stdout w ++ [MsgRow category count])))
        as (lines & ->).
      simpl. exists (MsgRow category count :: lines). by rewrite <- app_assoc.
    + unfold mret, M_ret. apply IH.
Qed.

Lemma print_summary_returns (summary : dict) (w : world) :
  ∃ lines,
    print_summary summary w = (Return tt, World (files w) (stdout w ++ lines)).
Proof.
  unfold print_summary. case_decide.
  - by exists [MsgAlreadyClean].
  - unfold mbind, M_bind, print at 1 2 3 4. simpl.
    match goal with
    | |- context [print_rows summary ?w0] =>
        destruct (print_rows_returns summary w0) as (lines & ->)
    end.
    unfold print. simpl. eexists. rewrite <- !app_assoc. done.
Qed.

End Runs.

(** ** Path validation *)

(** C8. [validate_path] makes the path absolute, then: when that path does
    not exist it reports so and exits with status 1; when it exists and is
    not a directory it reports that and exits with status 1; when it is a
    directory the process may not read and write, it reports insufficient
    permissions and exits with status 1; otherwise it returns the absolute
    path, and neither the file system nor the output has changed. A failure
    leaves the file system as it was. *)
Theorem validate_path_checks `{H : Host} (path_ : string) (w : world) :
  (path_exists (files w) (os_path_abspath path_) = false →
   validate_path path_ w
   = (Raise (SystemExit 1),
      World (files w) (stdout w ++ [MsgNotExist (os_path_abspath path_)])))
  ∧ (path_exists (files w) (os_path_abspath path_) = true →
     path_isdir (files w) (os_path_abspath path_) = false →
     validate_path path_ w
     = (Raise (SystemExit 1),
        World (files w) (stdout w ++ [MsgNotADirectory (os_path_abspath path_)])))
  ∧ (path_isdir (files w) (os_path_abspath path_) = true →
     access_rw (files w) (os_path_abspath path_) = false →
     validate_path path_ w
     = (Raise (SystemExit 1),
        World (files w)
          (stdout w ++ [MsgInsufficientPermissions (os_path_abspath path_)])))
  ∧ (path_isdir (files w) (os_path_abspath path_) = true →
     access_rw (files w) (os_path_abspath path_) = true →
     validate_path path_ w = (Return (os_path_abspath path_), w)).
Proof.
  unfold validate_path, mbind, M_bind, os_path_exists, os_path_isdir,
    os_access_rw.
  repeat split.
  - intros He. by rewrite He.
  - intros He Hd. rewrite He. simpl. by rewrite Hd.
  - intros Hd Ha. rewrite (path_isdir_exists _ _ Hd). simpl.
    rewrite Hd. simpl. by rewrite Ha.
  - intros Hd Ha. rewrite (path_isdir_exists _ _ Hd). simpl.
    rewrite Hd. simpl. by rewrite Ha.
Qed.

Lemma validate_path_checks_witness :
  @validate_path TestHost.host "/nowhere" TestHost.start
  = (Raise (SystemExit 1), World TestHost.downloads [MsgNotExist ["nowhere"]])
  ∧ @validate_path TestHost.host "/home/notes.txt" TestHost.start
    = (Raise (SystemExit 1),
       World TestHost.downloads [MsgNotADirectory ["home"; "notes.txt"]])
  ∧ @validate_path TestHost.host "/sealed" TestHost.start
    = (Raise (SystemExit 1),
       World TestHost.downloads [MsgInsufficientPermissions ["sealed"]])
  ∧ @validate_path TestHost.host "/home/" TestHost.start
    = (Return ["home"], TestHost.start).
Proof.
  split; [|split; [|split]].
  - apply (@validate_path_checks TestHost.host "/nowhere" TestHost.start).
    vm_compute. reflexivity.
  - apply (@validate_path_checks TestHost.host "/home/notes.txt" TestHost.start);
      vm_compute; reflexivity.
  - apply (@validate_path_checks TestHost.host "/sealed" TestHost.start);
      vm_compute; reflexivity.
  - apply (@validate_path_checks TestHost.host "/home/" TestHost.start);
      vm_compute; reflexivity.
Defined.

(** ** The organising loop *)

(** C7. An entry whose name starts with a dot is skipped by its turn of the
    loop, which changes neither the summary nor the world; a listing with or
    without that entry gives the same summary and the same world; and after
    any run of [organize_files] the entry is where it was. *)
Theorem hidden_entry_untouched `{H : Host} (base_path : path) (n : string) :
  is_hidden_or_system n = true →
  (∀ (summary : dict) (w : world),
     organize_entry base_path summary n w = (Return summary, w))
  ∧ (∀ (entries : list string) (summary : dict) (w : world),
       organize_loop base_path entries summary w
       = organize_loop base_path
           (List.filter (λ e, negb (bool_decide (e = n))) entries) summary w)
  ∧ (∀ w : world,
       files (organize_files base_path w).2 !! (base_path ++ [n])
       = files w !! (base_path ++ [n])).
Proof.
  intros Hh. split; [|split].
  - intros summary w. apply organize_entry_skips. by right.
  - intros entries. by apply organize_loop_without_hidden.
  - intros w. destruct (os_listdir base_path w) as [[entries| |] w0] eqn:Hlist.
    + destruct (os_listdir_inv _ _ _ _ Hlist) as (-> & _).
      destruct (organize_files_steps _ _ _ Hlist) as (s' & w' & -> & Hsteps & _).
      simpl. by eapply loop_steps_hidden.
    + pose proof (os_listdir_world base_path w) as Hw. rewrite Hlist in Hw.
      simpl in Hw. subst w0.
      unfold organize_files, mbind, M_bind. by rewrite Hlist.
    + pose proof (os_listdir_world base_path w) as Hw. rewrite Hlist in Hw.
      simpl in Hw. subst w0.
      unfold organize_files, mbind, M_bind. by rewrite Hlist.
Qed.

Lemma hidden_entry_untouched_witness :
  is_hidden_or_system ".DS_Store" = true
  ∧ files (@organize_files TestHost.host ["home"] TestHost.start).2
      !! (["home"] ++ [".DS_Store"])
    = files TestHost.start !! (["home"] ++ [".DS_Store"]).
Proof.
  split; [reflexivity|].
  apply (@hidden_entry_untouched TestHost.host ["home"] ".DS_Store").
  reflexivity.
Defined.

(** C2. When [organize_files] has its listing of the base directory, it
    returns, it prints nothing but the reports of the moves that failed, and
    the counts of the summary, the entries skipped as hidden and the failed
    moves add up to the number of entries of the base directory that were not
    directories before the run. *)
Theorem organize_conservation `{H : Host} `{!HostLaws H}
    (base_path : path) (w : world) :
  files w !! base_path = Some Dir →
  listdir_fault (files w) base_path = None →
  ∃ (summary : dict) (f' : fs) (reports : list message),
    organize_files base_path w
    = (Return summary, World f' (stdout w ++ reports))
    ∧ Forall (λ m, is_failure_report m = true) reports
    ∧ dict_total summary
      + size (skipped_hidden_entries (files w) base_path)
      + length reports
      = size (non_directory_entries (files w) base_path).
Proof.
  intros Hdir Hfault.
  pose proof (os_listdir_returns base_path w Hdir Hfault) as Hlist.
  destruct (organize_files_steps _ _ _ Hlist) as (s' & w' & Hrun & Hsteps & _).
  destruct (loop_steps_stdout _ _ _ _ _ _ Hsteps) as (reports & Hout & Hall).
  exists s', (files w'), reports. split; [|split; [done|]].
  - rewrite Hrun, <- Hout. by destruct w'.
  - pose proof (loop_steps_conservation _ _ _ _ _ _ Hsteps
                  (listdir_NoDup (files w) base_path)) as Hcons.
    rewrite Hout, (failed_count_reports _ _ Hall) in Hcons.
    rewrite !(filter_length_size _ (dir_entries (files w) base_path))
      in Hcons; try apply listdir_NoDup;
      try (intros n; rewrite elem_of_dir_entries; apply listdir_elem).
    replace (dict_total initial_summary) with 0 in Hcons by done.
    assert (skipped_hidden_entries (files w) base_path
            = filter (λ n, non_directory (files w) base_path n
                           && is_hidden_or_system n = true)
                (dir_entries (files w) base_path)) as ->.
    { apply set_eq. intros n. unfold skipped_hidden_entries, non_directory_entries.
      rewrite !elem_of_filter, andb_true_iff. tauto. }
    assert (non_directory_entries (files w) base_path
            = filter (λ n, non_directory (files w) base_path n && true = true)
                (dir_entries (files w) base_path)) as ->.
    { apply set_eq. intros n. unfold non_directory_entries.
      rewrite !elem_of_filter, andb_true_r. tauto. }
    lia.
Qed.

Lemma organize_conservation_witness :
  size (non_directory_entries (files TestHost.start) ["home"]) = 6
  ∧ size (skipped_hidden_entries (files TestHost.start) ["home"]) = 1
  ∧ ∃ (summary : dict) (f' : fs) (reports : list message),
      @organize_files TestHost.host ["home"] TestHost.start
      = (Return summary, World f' (stdout TestHost.start ++ reports))
      ∧ Forall (λ m, is_failure_report m = true) reports
      ∧ dict_total summary
        + size (skipped_hidden_entries (files TestHost.start) ["home"])
        + length reports
        = size (non_directory_entries (files TestHost.start) ["home"]).
Proof.
  split; [vm_compute; reflexivity|]. split; [vm_compute; reflexivity|].
  apply (@organize_conservation TestHost.host TestHost_laws
           ["home"] TestHost.start); vm_compute; reflexivity.
Defined.

Section Idempotence.

Context `{H : Host}.

Lemma loop_steps_failed_mono (base_path : path) (entries : list string)
    (s s' : dict) (w w' : world) :
  loop_steps base_path entries s w s' w' →
  failed_count (stdout w) ≤ failed_count (stdout w').
Proof.
  intros Hsteps.
  destruct (loop_steps_stdout _ _ _ _ _ _ Hsteps) as (reports & -> & Hall).
  rewrite (failed_count_reports _ _ Hall). lia.
Qed.

(** After a run without failure, each listed entry is a directory, is
    hidden, or has left the base directory. *)
Lemma loop_steps_clean (base_path : path) (entries : list string)
    (s s' : dict) (w w' : world) :
  loop_steps base_path entries s w s' w' →
  NoDup entries →
  failed_count (stdout w') = failed_count (stdout w) →
  ∀ e, e ∈ entries →
    path_isdir (files w') (base_path ++ [e]) = true
    ∨ is_hidden_or_system e = true
    ∨ files w' !! (base_path ++ [e]) = None.
Proof.
  induction 1 as [s w|entry rest s w s1 w1 s2 w2 Hstep Hloop IH];
    intros Hnd Hquiet e He; [by apply elem_of_nil in He|].
  apply NoDup_cons in Hnd as [Hnotin Hnd].
  pose proof (loop_steps_failed_mono _ _ _ _ _ _ Hloop) as Hmono.
  pose proof (entry_step_stdout _ _ _ _ _ _ Hstep) as Hout.
  assert (failed_count (stdout w1) = failed_count (stdout w)) as Hquiet1
    by (destruct Hout as [?|[? _]]; lia).
  apply elem_of_cons in He as [->|He].
  - pose proof (loop_steps_frame _ _ _ _ _ _ entry Hloop Hnotin) as Hlater.
    unfold path_isdir. rewrite Hlater.
    inversion Hstep as [? ? Hd|? ? Hd Hh|? ? k leaf n Hd Hh Hsrc Hdst Hget
                        |? ? err Hd Hh|? ? err k leaf Hd Hh Hsrc Hdst]; subst.
    + by left.
    + right. by left.
    + right. right. simpl.
      rewrite lookup_insert_ne by apply root_ne_child.
      apply lookup_delete_eq.
    + exfalso. destruct Hout as [Hsame|[Hmore _]]; [|lia].
      simpl in Hsame. unfold failed_count in Hsame.
      rewrite List.filter_app, length_app in Hsame.
      replace (length (List.filter is_failure_report [report entry err]))
        with 1 in Hsame by (by destruct err).
      lia.
    + exfalso. destruct Hout as [Hsame|[Hmore _]]; [|lia].
      simpl in Hsame. unfold failed_count in Hsame.
      rewrite List.filter_app, length_app in Hsame.
      replace (length (List.filter is_failure_report [report entry err]))
        with 1 in Hsame by (by destruct err).
      lia.
  - apply IH; [done|lia|done].
Qed.

End Idempotence.

(** C5. After a run of [organize_files] in which no move has failed, a second
    run on the directory as the first one left it, when it has its listing,
    returns the summary with every count at zero and changes nothing; for
    that summary [print_summary] prints the line that the folder is already
    clean. *)
Theorem organize_idempotent `{H : Host} `{!HostLaws H}
    (base_path : path) (w w1 : world) (summary1 : dict) :
  organize_files base_path w = (Return summary1, w1) →
  failed_count (stdout w1) = failed_count (stdout w) →
  listdir_fault (files w1) base_path = None →
  organize_files base_path w1 = (Return initial_summary, w1)
  ∧ Forall (λ item : string * nat, item.2 = 0) initial_summary
  ∧ print_summary initial_summary w1
    = (Return tt, World (files w1) (stdout w1 ++ [MsgAlreadyClean])).
Proof.
  intros Hrun Hquiet Hfault. split; [|split; [|done]].
  2:{ apply (bool_decide_unpack _). vm_compute. exact I. }
  destruct (os_listdir base_path w) as [[entries| |] w0] eqn:Hlist;
    [|unfold organize_files, mbind, M_bind in Hrun; by rewrite Hlist in Hrun..].
  destruct (os_listdir_inv _ _ _ _ Hlist) as (-> & Hdir & _ & Hentries).
  destruct (organize_files_steps _ _ _ Hlist) as (s' & w' & Hrun' & Hsteps & _).
  rewrite Hrun in Hrun'. injection Hrun' as <- <-.
  assert (NoDup entries) as Hnd by (subst entries; apply listdir_NoDup).
  pose proof (loop_steps_clean _ _ _ _ _ _ Hsteps Hnd Hquiet) as Hclean.
  assert (files w1 !! base_path = Some Dir) as Hdir1
    by (by rewrite (loop_steps_base _ _ _ _ _ _ Hsteps)).
  unfold organize_files, mbind, M_bind.
  rewrite (os_listdir_returns _ _ Hdir1 Hfault).
  apply organize_loop_skips. intros e He.
  apply listdir_elem in He.
  destruct (decide (e ∈ entries)) as [Hin|Hout].
  - destruct (Hclean e Hin) as [?|[?|Hgone]]; [by left|by right|].
    rewrite Hgone in He. by destruct He.
  - exfalso. apply Hout. subst entries. apply listdir_elem.
    by rewrite <- (loop_steps_frame _ _ _ _ _ _ e Hsteps Hout).
Qed.

Section Isolation.

Context `{H : Host}.

(** The total of the summary grows by the number of entries that have left
    the base directory. *)
Lemma loop_steps_total (base_path : path) (entries : list string)
    (s s' : dict) (w w' : world) :
  loop_steps base_path entries s w s' w' →
  NoDup entries →
  dict_total s'
  = dict_total s
    + length (moved_entries (files w) (files w') base_path entries).
Proof.
  induction 1 as [s w|entry rest s w s1 w1 s2 w2 Hstep Hloop IH]; intros Hnd.
  - simpl. lia.
  - apply NoDup_cons in Hnd as [Hnotin Hnd]. specialize (IH Hnd).
    pose proof (loop_steps_frame _ _ _ _ _ _ entry Hloop Hnotin) as Hlater.
    unfold moved_entries. cbn [List.filter].
    fold (moved_entries (files w) (files w2) base_path rest).
    rewrite <- (moved_entries_frame _ _ _ _ _ _ (files w2) rest Hstep Hnotin).
    unfold path_exists at 1 2. rewrite Hlater.
    inversion Hstep as [? ? Hd|? ? Hd Hh|? ? k leaf m Hd Hh Hsrc Hdst Hgetc
                        |? ? err Hd Hh|? ? err k leaf Hd Hh Hsrc Hdst]; subst.
    + rewrite IH.
      by destruct (bool_decide (is_Some (files w1 !! (base_path ++ [entry])))).
    + rewrite IH.
      by destruct (bool_decide (is_Some (files w1 !! (base_path ++ [entry])))).
    + cbn [files]. rewrite lookup_insert_ne by apply root_ne_child.
      rewrite lookup_delete_eq, Hsrc.
      rewrite bool_decide_eq_true_2 by (by eexists).
      rewrite (bool_decide_eq_false_2 (is_Some None)) by (by intros [? ?]).
      cbn [files] in IH. rewrite IH, (dict_total_set _ _ _ Hgetc).
      simpl. lia.
    + cbn [files] in *. rewrite IH.
      by destruct (bool_decide (is_Some (files w !! (base_path ++ [entry])))).
    + cbn [files] in *. rewrite lookup_insert_ne by apply root_ne_child.
      rewrite IH.
      by destruct (bool_decide (is_Some (files w !! (base_path ++ [entry])))).
Qed.

(** [os.makedirs] of a folder of an existing directory changes at most
    that folder, and prints nothing. *)
Lemma os_makedirs_child (base_path : path) (category : string) (w : world) :
  path_exists (files w) base_path = true →
  ∃ (o : outcome unit) (f' : fs),
    os_makedirs_exist_ok (base_path ++ [category]) w
    = (o, World f' (stdout w))
    ∧ (f' = files w ∨ f' = <[base_path ++ [category] := Dir]> (files w)).
Proof.
  destruct w as [f out]. simpl. intros Hbase. unfold os_makedirs_exist_ok.
  rewrite reverse_app. simpl. unfold mbind at 1, M_bind at 1.
  unfold mbind at 1, M_bind at 1, os_path_exists at 1.
  rewrite reverse_involutive. simpl. rewrite Hbase. simpl.
  rewrite reverse_cons, reverse_involutive.
  unfold try_except, os_mkdir. simpl.
  destruct (path_exists f (base_path ++ [category])).
  { unfold mbind, M_bind, os_path_isdir. simpl.
    destruct (path_isdir f (base_path ++ [category]));
      eexists _, _; (split; [done|by left]). }
  destruct (path_isdir f (dirname (base_path ++ [category]))); simpl.
  2:{ unfold mbind, M_bind, os_path_isdir. simpl.
      destruct (path_isdir f (base_path ++ [category]));
        eexists _, _; (split; [done|by left]). }
  destruct (mkdir_fault f (base_path ++ [category])).
  { unfold mbind, M_bind, os_path_isdir. simpl.
    destruct (path_isdir f (base_path ++ [category]));
      eexists _, _; (split; [done|by left]). }
  eexists _, _. split; [done|by right].
Qed.

Lemma create_folders_base (base_path : path) (categories : list string) :
  ∀ (w w' : world) (o : outcome unit),
    path_exists (files w) base_path = true →
    create_folders base_path categories w = (o, w') →
    files w' !! base_path = files w !! base_path ∧ stdout w' = stdout w.
Proof.
  induction categories as [|category rest IH]; intros w w' o Hbase.
  - by intros [= _ <-].
  - simpl. unfold mbind, M_bind.
    destruct (os_makedirs_child base_path category w Hbase)
      as (o1 & f1 & -> & Hf1).
    assert (f1 !! base_path = files w !! base_path) as Hsame.
    { destruct Hf1 as [->| ->]; [done|].
      apply lookup_insert_ne. by apply base_ne_below. }
    destruct o1 as [[]| |]; [|by intros [= _ <-]..].
    intros Hrest. apply IH in Hrest as [Hb Hout].
    + simpl in *. by rewrite Hb, Hsame.
    + unfold path_exists in *. simpl. by rewrite Hsame.
Qed.

Lemma validate_path_inv (path_ : string) (base_path : path) (w w' : world) :
  validate_path path_ w = (Return base_path, w') →
  w' = w ∧ path_isdir (files w) base_path = true.
Proof.
  unfold validate_path, mbind, M_bind, os_path_exists, os_path_isdir,
    os_access_rw.
  destruct (path_exists (files w) (os_path_abspath path_)); [|done]. simpl.
  destruct (path_isdir (files w) (os_path_abspath path_)) eqn:Hd; [|done].
  simpl. destruct (access_rw (files w) (os_path_abspath path_)); [|done].
  simpl. by intros [= <- <-].
Qed.

(** Once the path is validated, the folders are made and the directory is
    listed, [main] ends with status 0, whatever the moves do. *)
Lemma main_exit_status (prog target : string) (base_path : path)
    (w w2 : world) :
  validate_path target w = (Return base_path, w) →
  create_category_folders base_path
    (World (files w) (stdout w ++ [MsgScanning base_path])) = (Return tt, w2) →
  listdir_fault (files w2) base_path = None →
  ∃ w', main [prog; target] w = (Return tt, w').
Proof.
  intros Hval Hcreate Hfault.
  destruct (validate_path_inv _ _ _ _ Hval) as [_ Hd].
  unfold create_category_folders in Hcreate.
  pose proof (create_folders_base base_path CATEGORIES
                (World (files w) (stdout w ++ [MsgScanning base_path])) w2 _
                (path_isdir_exists _ _ Hd) Hcreate) as [Hbase _].
  simpl in Hbase. apply bool_decide_eq_true in Hd.
  rewrite Hd in Hbase.
  destruct (organize_files_steps base_path w2 _
              (os_listdir_returns _ _ Hbase Hfault))
    as (s' & w3 & Hrun & _).
  destruct (print_summary_returns s' w3) as (lines & Hprint).
  unfold main, mbind, M_bind. rewrite Hval. unfold print at 1.
  unfold create_category_folders. rewrite Hcreate, Hrun, Hprint.
  by eexists.
Qed.

End Isolation.

(** C1. (1) When the move of an entry fails with an [OSError], permission
    denied or any other, the turn of the loop on that entry returns the
    summary as it was and prints one line that reports the entry; the entry
    is still at its path in the base directory; the file system is as it
    was, or differs only by a copy of the entry left at the destination
    path, which was free (the move falls back on copying when renaming
    fails); and the loop goes on with the remaining entries.
    (2) When [organize_files] has its listing it returns a summary, in which
    the count of every category is the number of listed entries of that
    category that have left the base directory, and the total is the number
    of all such entries. (3) Once the path is validated, the category folders
    are made and the directory is listed, [main] ends with exit status 0,
    whatever the moves do. *)
Theorem organize_isolates_failures `{H : Host} `{!HostLaws H}
    (base_path : path) :
  (∀ (summary : dict) (entry : string) (rest : list string) (w w' : world)
     (dest : path) (err : os_error),
     path_isdir (files w) (base_path ++ [entry]) = false →
     is_hidden_or_system entry = false →
     resolve_duplicate (base_path ++ [get_category entry]) entry w
     = (Return dest, w) →
     shutil_move (base_path ++ [entry]) dest w = (Raise (OSError err), w') →
     organize_entry base_path summary entry w
     = (Return summary, World (files w') (stdout w ++ [report entry err]))
     ∧ files w' !! (base_path ++ [entry]) = files w !! (base_path ++ [entry])
     ∧ (∀ p : path, p ≠ dest → files w' !! p = files w !! p)
     ∧ (files w' = files w
        ∨ ∃ k : kind,
            files w !! (base_path ++ [entry]) = Some k
            ∧ files w !! dest = None
            ∧ files w' = <[dest := k]> (files w))
     ∧ organize_loop base_path (entry :: rest) summary w
       = organize_loop base_path rest summary
           (World (files w') (stdout w ++ [report entry err])))
  ∧ (∀ w : world,
       files w !! base_path = Some Dir →
       listdir_fault (files w) base_path = None →
       ∃ (summary : dict) (w' : world),
         organize_files base_path w = (Return summary, w')
         ∧ (∀ category : string,
              category ∈ CATEGORIES →
              dict_get summary category
              = Some (length
                        (List.filter
                           (λ e, bool_decide (get_category e = category))
                           (moved_entries (files w) (files w') base_path
                              (listdir_order (files w) base_path)))))
         ∧ dict_total summary
           = length (moved_entries (files w) (files w') base_path
                       (listdir_order (files w) base_path)))
  ∧ (∀ (prog target : string) (w w2 : world),
       validate_path target w = (Return base_path, w) →
       create_category_folders base_path
         (World (files w) (stdout w ++ [MsgScanning base_path]))
       = (Return tt, w2) →
       listdir_fault (files w2) base_path = None →
       exit_status (main [prog; target] w).1 = Some 0%Z).
Proof.
  split; [|split].
  - intros summary entry rest w w' dest err Hd Hh Hres Hmove.
    destruct (organize_entry_move_fails base_path summary entry w w' dest err
                Hd Hh Hres Hmove) as (Hturn & Hsrc & Hframe & Hcopy).
    split; [done|]. split; [done|]. split; [done|]. split; [done|].
    simpl. unfold mbind, M_bind. by rewrite Hturn.
  - intros w Hdir Hfault.
    pose proof (os_listdir_returns base_path w Hdir Hfault) as Hlist.
    destruct (organize_files_steps _ _ _ Hlist) as (s' & w' & Hrun & Hsteps & _).
    pose proof (listdir_NoDup (files w) base_path) as Hnd.
    exists s', w'. split; [done|]. split.
    + intros category Hcat.
      by rewrite (loop_steps_counts _ _ _ _ _ _ category 0 Hsteps Hnd
                    (initial_summary_get _ Hcat)).
    + by rewrite (loop_steps_total _ _ _ _ _ _ Hsteps Hnd).
  - intros prog target w w2 Hval Hcreate Hfault.
    destruct (main_exit_status prog target base_path w w2 Hval Hcreate Hfault)
      as (w' & ->).
    done.
Qed.

Lemma organize_isolates_failures_witness :
  let w2 := (@create_category_folders TestHost.host ["home"]
               (World TestHost.downloads [MsgScanning ["home"]])).2 in
  let copied := <[["home"; "Documents"; "locked.txt"] := File]> (files w2) in
  (@organize_entry TestHost.host ["home"] initial_summary "locked.txt" w2
   = (Return initial_summary,
      World copied (stdout w2 ++ [MsgPermissionDenied "locked.txt"]))
   ∧ copied !! (["home"] ++ ["locked.txt"])
     = files w2 !! (["home"] ++ ["locked.txt"]))
  ∧ @organize_entry TestHost.host ["home"] initial_summary "busy.txt" w2
    = (Return initial_summary,
       World (files w2) (stdout w2 ++ [MsgOSErrorMoving "busy.txt" OtherOSError]))
  ∧ (∃ (summary : dict) (w' : world),
       @organize_files TestHost.host ["home"] w2 = (Return summary, w')
       ∧ dict_total summary
         = length (moved_entries (files w2) (files w') ["home"]
                     (@listdir_order TestHost.host (files w2) ["home"])))
  ∧ failed_count
      (stdout (@main TestHost.host ["organizer.py"; "/home"] TestHost.start).2)
    = 2
  ∧ exit_status (@main TestHost.host ["organizer.py"; "/home"] TestHost.start).1
    = Some 0%Z.
Proof.
  intros w2 copied.
  destruct (@organize_isolates_failures TestHost.host TestHost_laws ["home"])
    as (Hturn & Hrun & Hexit).
  split; [|split; [|split; [|split]]].
  - destruct (Hturn initial_summary "locked.txt" [] w2
                (World copied (stdout w2))
                ["home"; "Documents"; "locked.txt"] PermissionError)
      as (Hentry & Hsrc & _); [vm_compute; reflexivity..|].
    split; [exact Hentry|exact Hsrc].
  - apply (Hturn initial_summary "busy.txt" [] w2 w2
             ["home"; "Documents"; "busy.txt"] OtherOSError);
      vm_compute; reflexivity.
  - destruct (Hrun w2) as (summary & w' & Hfiles & _ & Htotal);
      [vm_compute; reflexivity..|].
    exists summary, w'. split; [exact Hfiles|exact Htotal].
  - vm_compute. reflexivity.
  - apply (Hexit "organizer.py" "/home" TestHost.start w2);
      vm_compute; reflexivity.
Defined.

Lemma organize_idempotent_witness :
  let w := World TestHost.pictures [] in
  let w1 := (@organize_files TestHost.host ["pics"] w).2 in
  files w1 !! ["pics"; "Images"; "photo_1.jpg"] = Some File
  ∧ @organize_files TestHost.host ["pics"] w1 = (Return initial_summary, w1)
  ∧ Forall (λ item : string * nat, item.2 = 0) initial_summary
  ∧ @print_summary initial_summary w1
    = (Return tt, World (files w1) (stdout w1 ++ [MsgAlreadyClean])).
Proof.
  intros w w1. split; [vm_compute; reflexivity|].
  apply (@organize_idempotent TestHost.host TestHost_laws ["pics"] w w1
           [("Images", 1); ("Videos", 0); ("PDFs", 0); ("Documents", 1);
            ("Code", 0); ("Others", 0)]);
    vm_compute; reflexivity.
Defined.

(** ** The scenarios of the specification, run on the concrete host *)

Example scenario_unknown_extension : get_category "archive.zip" = "Others".
Proof. vm_compute. reflexivity. Qed.

Example scenario_upper_case : get_category "photo.JPG" = "Images".
Proof. vm_compute. reflexivity. Qed.

Example scenario_splitext :
  PyStr.splitext "a.tar.gz" = ("a.tar", ".gz")
  ∧ PyStr.splitext "..a.b" = ("..a", ".b")
  ∧ PyStr.splitext "a.b/c" = ("a.b/c", "")
  ∧ PyStr.splitext "name." = ("name", ".").
Proof. repeat split; vm_compute; reflexivity. Qed.

Example scenario_collision :
  resolve_duplicate ["pics"; "Images"] "photo.jpg" (World TestHost.pictures [])
  = (Return ["pics"; "Images"; "photo_1.jpg"], World TestHost.pictures []).
Proof. vm_compute. reflexivity. Qed.

Example scenario_missing_path :
  @main TestHost.host ["organizer.py"; "/nowhere"] TestHost.start
  = (Raise (SystemExit 1), World TestHost.downloads [MsgNotExist ["nowhere"]]).
Proof. vm_compute. reflexivity. Qed.

Example scenario_usage :
  exit_status (@main TestHost.host ["organizer.py"] TestHost.start).1 = Some 1%Z.
Proof. vm_compute. reflexivity. Qed.

Example scenario_mixed_directory :
  let w' := (@main TestHost.host ["organizer.py"; "/home"] TestHost.start).2 in
  files w' !! ["home"; "Images"; "photo.JPG"] = Some File
  ∧ files w' !! ["home"; "Documents"; "notes.txt"] = Some File
  ∧ files w' !! ["home"; "Others"; "archive.zip"] = Some File
  ∧ files w' !! ["home"; ".DS_Store"] = Some File
  ∧ files w' !! ["home"; "locked.txt"] = Some File
  ∧ files w' !! ["home"; "photo.JPG"] = None.
Proof. repeat split; vm_compute; reflexivity. Qed.

(** * Further properties *)

(** ** Names that differ in case *)

Section CaseFacts.

Import PyStr.

Lemma lower_char_keeps (c x : ascii) :
  x = "."%char ∨ x = "/"%char →
  bool_decide (lower_char c = x) = bool_decide (c = x).
Proof.
  intros [-> | ->];
    destruct c as [[] [] [] [] [] [] [] []]; vm_compute; reflexivity.
Qed.

Lemma lower_char_idemp (c : ascii) : lower_char (lower_char c) = lower_char c.
Proof. destruct c as [[] [] [] [] [] [] [] []]; vm_compute; reflexivity. Qed.

Lemma lower_idemp (s : string) : lower (lower s) = lower s.
Proof.
  induction s as [|a s IH]; simpl; [done|].
  by rewrite lower_char_idemp, IH.
Qed.

Lemma lower_app (s t : string) : lower (s +:+ t) = lower s +:+ lower t.
Proof. induction s as [|a s IH]; simpl; [done|]. by rewrite IH. Qed.

Lemma rfind_lower_eq (x : ascii) (s : string) :
  x = "."%char ∨ x = "/"%char → rfind x (lower s) = rfind x s.
Proof.
  intros Hx. unfold rfind. generalize 0%Z (-1)%Z.
  induction s as [|a s IH]; intros i last; simpl; [done|].
  by rewrite (lower_char_keeps a x Hx), IH.
Qed.

Lemma get_lower (n : nat) (s : string) :
  String.get n (lower s) = lower_char <$> String.get n s.
Proof.
  revert n. induction s as [|a s IH]; intros [|n]; simpl; auto.
Qed.

Lemma scan_dots_lower (p : string) (i : Z) (n : nat) :
  scan_dots (lower p) i n = scan_dots p i n.
Proof.
  revert i. induction n as [|n IH]; intros i; simpl; [done|].
  rewrite IH. unfold not_dot_at. rewrite get_lower.
  destruct (String.get (Z.to_nat i) p) as [c|]; simpl; [|done].
  by rewrite (lower_char_keeps c "."%char) by (by left).
Qed.

Lemma take_lower (n : nat) (s : string) : take n (lower s) = lower (take n s).
Proof.
  revert n. induction s as [|a s IH]; intros [|n]; simpl; try done.
  by rewrite IH.
Qed.

Lemma drop_lower (n : nat) (s : string) : drop n (lower s) = lower (drop n s).
Proof.
  revert n. induction s as [|a s IH]; intros [|n]; simpl; try done.
Qed.

Lemma splitext_lower (p : string) :
  splitext (lower p) = (lower (splitext p).1, lower (splitext p).2).
Proof.
  unfold splitext.
  rewrite !rfind_lower_eq by (by (left + right)).
  rewrite scan_dots_lower, take_lower, drop_lower.
  by destruct (_ && _).
Qed.

Lemma get_category_lower (filename : string) :
  get_category (lower filename) = get_category filename.
Proof.
  rewrite !get_category_ext, splitext_lower. cbn [fst snd].
  by rewrite lower_idemp.
Qed.

End CaseFacts.

(** X1. Two names that are equal once in lower case have the same category:
    the classification ignores the case of the whole name, not only of the
    extension. *)
Theorem get_category_ignores_case (filename filename' : string) :
  PyStr.lower filename = PyStr.lower filename' →
  get_category filename = get_category filename'.
Proof.
  intros Heq.
  by rewrite <- (get_category_lower filename), Heq, get_category_lower.
Qed.

Lemma get_category_ignores_case_witness :
  PyStr.lower "Holiday.JPeG" = PyStr.lower "hOLIDAY.jpEg"
  ∧ get_category "Holiday.JPeG" = get_category "hOLIDAY.jpEg".
Proof.
  split; [reflexivity|].
  apply (get_category_ignores_case "Holiday.JPeG" "hOLIDAY.jpEg"). reflexivity.
Defined.

(** ** Names built by concatenation *)

Section AppendFacts.

Import PyStr.

Lemma string_app_cons (a : ascii) (s t : string) :
  String a s +:+ t = String a (s +:+ t).
Proof. reflexivity. Qed.

Lemma string_app_assoc (s t u : string) : (s +:+ t) +:+ u = s +:+ t +:+ u.
Proof.
  induction s as [|a s IH]; [done|]. by rewrite !string_app_cons, IH.
Qed.

Lemma string_app_nil_r (s : string) : s +:+ "" = s.
Proof. induction s as [|a s IH]; [done|]. by rewrite string_app_cons, IH. Qed.

Lemma str_mem_app (c : ascii) (s t : string) :
  str_mem c (s +:+ t) = str_mem c s || str_mem c t.
Proof.
  induction s as [|a s IH]; [done|].
  rewrite string_app_cons. simpl. by rewrite IH, orb_assoc.
Qed.

Lemma has_nondot_app (s t : string) :
  has_nondot (s +:+ t) = has_nondot s || has_nondot t.
Proof.
  induction s as [|a s IH]; [done|].
  rewrite string_app_cons. simpl. by rewrite IH, orb_assoc.
Qed.

Lemma str_mem_lower (x : ascii) (s : string) :
  x = "."%char ∨ x = "/"%char → str_mem x (lower s) = str_mem x s.
Proof.
  intros Hx. induction s as [|a s IH]; simpl; [done|].
  by rewrite (lower_char_keeps a x Hx), IH.
Qed.

Lemma has_nondot_lower (s : string) : has_nondot (lower s) = has_nondot s.
Proof.
  induction s as [|a s IH]; simpl; [done|].
  by rewrite (lower_char_keeps a "."%char) by (by left); rewrite IH.
Qed.

Lemma rfind_app (c : ascii) (s t : string) :
  rfind c (s +:+ t) =
    if (rfind c t <? 0)%Z then rfind c s
    else (Z.of_nat (String.length s) + rfind c t)%Z.
Proof.
  pose proof (rfind_lower c t) as Ht.
  induction s as [|a s IH].
  - change ("" +:+ t) with t. simpl.
    destruct (rfind c t <? 0)%Z eqn:E; [|done].
    apply Z.ltb_lt in E. change (rfind c "") with (-1)%Z. lia.
  - change (String a s +:+ t) with (String a (s +:+ t)).
    rewrite !rfind_cons, IH. pose proof (rfind_lower c s) as Hs.
    destruct (rfind c t <? 0)%Z eqn:E; [done|].
    apply Z.ltb_ge in E.
    destruct (Z.of_nat (String.length s) + rfind c t <? 0)%Z eqn:E';
      [apply Z.ltb_lt in E'; lia|].
    cbn [String.length]. lia.
Qed.

Lemma take_app_length (s t : string) : take (String.length s) (s +:+ t) = s.
Proof.
  induction s as [|a s IH]; [by destruct t|].
  rewrite string_app_cons. simpl. by rewrite IH.
Qed.

Lemma drop_app_length (s t : string) : drop (String.length s) (s +:+ t) = t.
Proof.
  induction s as [|a s IH]; [by destruct t|].
  rewrite string_app_cons. simpl. by rewrite IH.
Qed.

Lemma scan_dots_prefix (s t : string) :
  scan_dots (s +:+ t) 0 (String.length s) = has_nondot s.
Proof.
  induction s as [|a s IH]; [done|].
  change (String a s +:+ t) with (String a (s +:+ t)).
  cbn [String.length scan_dots has_nondot].
  rewrite (scan_dots_cons a (s +:+ t) 0) by lia. rewrite IH.
  unfold not_dot_at. simpl. by destruct (bool_decide (a = "."%char)).
Qed.

(** A name made of a stem with a character other than a dot, a dot, and a
    text without dot, and with no separator, is split at that dot. *)
Lemma splitext_stem_ext (stem e : string) :
  str_mem "/" (stem +:+ String "." e) = false →
  has_nondot stem = true →
  str_mem "." e = false →
  splitext (stem +:+ String "." e) = (stem, String "." e).
Proof.
  intros Hsep Hstem He. unfold splitext.
  rewrite (rfind_absent "/" _ Hsep), rfind_app.
  assert (rfind "." (String "." e) = 0%Z) as ->
    by (by rewrite rfind_cons, (rfind_absent _ _ He)).
  replace (0 <? 0)%Z with false by done. rewrite Z.add_0_r.
  replace (-1 <? Z.of_nat (String.length stem))%Z with true
    by (symmetry; apply Z.ltb_lt; lia).
  replace (-1 + 1)%Z with 0%Z by done. rewrite Z.sub_0_r, Nat2Z.id.
  by rewrite scan_dots_prefix, Hstem, take_app_length, drop_app_length.
Qed.

Lemma splitext_no_ext (p : string) :
  str_mem "/" p = false →
  str_mem "." (strip_dots p) = false →
  splitext p = (p, "").
Proof.
  intros Hsep Hdot. unfold splitext. rewrite (rfind_absent "/" p Hsep).
  replace (-1 + 1)%Z with 0%Z by done. by rewrite Z.sub_0_r, splitext_test, Hdot.
Qed.

Lemma last_dot_split (p : string) :
  str_mem "." p = true →
  ∃ stem e, p = stem +:+ String "." e ∧ str_mem "." e = false.
Proof.
  induction p as [|a p IH]; [done|]. simpl.
  destruct (str_mem "." p) eqn:Hp.
  - intros _. destruct (IH eq_refl) as (stem & e & -> & He).
    by exists (String a stem), e.
  - rewrite orb_false_r. intros ->%bool_decide_eq_true.
    by exists "", p.
Qed.

Lemma str_mem_strip_dots (c : ascii) (s : string) :
  str_mem c s = false → str_mem c (strip_dots s) = false.
Proof.
  induction s as [|a s IH]; [done|]. simpl.
  intros [Ha Hs]%orb_false_iff.
  destruct (bool_decide (a = "."%char)); [by apply IH|].
  simpl. by rewrite Ha, Hs.
Qed.

Lemma strip_dots_all_dots (s t : string) :
  has_nondot s = false → strip_dots (s +:+ t) = strip_dots t.
Proof.
  induction s as [|a s IH]; [done|]. simpl.
  intros [Ha Hs]%orb_false_iff. apply negb_false_iff in Ha.
  rewrite Ha. by apply IH.
Qed.

Lemma strip_dots_app_no_dot (p s : string) :
  str_mem "." (strip_dots p) = false →
  str_mem "." s = false →
  str_mem "." (strip_dots (p +:+ s)) = false.
Proof.
  intros Hp Hs. induction p as [|a p IH]; [by apply str_mem_strip_dots|].
  rewrite string_app_cons. simpl in *.
  destruct (bool_decide (a = "."%char)) eqn:Ha; [by apply IH|].
  simpl in *. rewrite Ha in *. simpl in *.
  by rewrite str_mem_app, Hp, Hs.
Qed.

(** The two ways [splitext] splits a name without separator. *)
Lemma splitext_cases (p : string) :
  str_mem "/" p = false →
  (∃ stem e, p = stem +:+ String "." e ∧ str_mem "." e = false
             ∧ has_nondot stem = true
             ∧ splitext p = (stem, String "." e))
  ∨ (str_mem "." (strip_dots p) = false ∧ splitext p = (p, "")).
Proof.
  intros Hsep. destruct (str_mem "." (strip_dots p)) eqn:Hdot.
  - left. assert (str_mem "." p = true) as Hp.
    { destruct (str_mem "." p) eqn:E; [done|].
      by rewrite (str_mem_strip_dots _ _ E) in Hdot. }
    destruct (last_dot_split p Hp) as (stem & e & -> & He).
    exists stem, e. split; [done|]. split; [done|].
    assert (has_nondot stem = true) as Hstem.
    { destruct (has_nondot stem) eqn:E; [done|].
      rewrite (strip_dots_all_dots _ _ E) in Hdot. simpl in Hdot.
      by rewrite (str_mem_strip_dots _ _ He) in Hdot. }
    split; [done|]. by apply splitext_stem_ext.
  - right. split; [done|]. by apply splitext_no_ext.
Qed.

Lemma pretty_N_go_free (c : ascii) (x : N) (s : string) :
  c = "."%char ∨ c = "/"%char →
  str_mem c s = false → str_mem c (pretty_N_go x s) = false.
Proof.
  intros Hc. revert s. induction (N.lt_wf_0 x) as [x _ IH]; intros s Hs.
  assert (x = 0 ∨ 0 < x)%N as [->|Hpos] by lia.
  - by rewrite pretty_N_go_0.
  - rewrite pretty_N_go_step by done. apply IH; [by apply N.div_lt|].
    simpl. rewrite Hs, orb_false_r.
    destruct Hc as [-> | ->]; unfold pretty_N_char; by repeat case_match.
Qed.

Lemma pretty_nat_free (c : ascii) (k : nat) :
  c = "."%char ∨ c = "/"%char → str_mem c (pretty k) = false.
Proof.
  intros Hc. unfold pretty, pretty_nat, pretty, pretty_N.
  case_decide; [by destruct Hc as [-> | ->]|].
  by apply pretty_N_go_free.
Qed.

End AppendFacts.

Lemma EXTENSION_TABLE_keys :
  NoDup EXTENSION_TABLE.*1
  ∧ Forall (λ row : string * string, table_key_ok row.1 = true) EXTENSION_TABLE.
Proof. split; apply (bool_decide_unpack _); vm_compute; exact I. Qed.

(** X2. Every row of [EXTENSION_MAP] is reachable: a name made of a stem
    without separator that has a character other than a dot, followed by an
    extension of the table written in any case, gets the category of that
    row. *)
Theorem get_category_table_row (stem ext ext' category : string) :
  (ext, category) ∈ EXTENSION_TABLE →
  PyStr.lower ext' = ext →
  str_mem "/" stem = false →
  has_nondot stem = true →
  get_category (stem +:+ ext') = category.
Proof.
  intros Hrow Hlow Hsep Hstem.
  destruct EXTENSION_TABLE_keys as [Hnd Hok].
  rewrite Forall_forall in Hok. specialize (Hok _ Hrow). simpl in Hok.
  destruct ext as [|c e]; [done|]. unfold table_key_ok in Hok.
  apply andb_true_iff in Hok as [Hok Hlower].
  apply andb_true_iff in Hok as [Hok He_sep].
  apply andb_true_iff in Hok as [Hc He_dot].
  apply bool_decide_eq_true in Hc as ->.
  apply bool_decide_eq_true in Hlower.
  apply negb_true_iff in He_sep, He_dot.
  rewrite <- (get_category_lower (stem +:+ ext')), lower_app, Hlow.
  rewrite get_category_ext, splitext_stem_ext.
  - cbn [snd]. rewrite Hlower. unfold EXTENSION_MAP.
    by rewrite (elem_of_list_to_map_1 _ _ _ Hnd Hrow).
  - rewrite str_mem_app, str_mem_lower by (by right). rewrite Hsep.
    simpl. by rewrite He_sep.
  - by rewrite has_nondot_lower.
  - done.
Qed.

Lemma get_category_table_row_witness :
  get_category ("Report.final" +:+ ".DocX") = "Documents".
Proof.
  apply (get_category_table_row "Report.final" ".docx" ".DocX" "Documents");
    [|reflexivity..].
  apply (bool_decide_unpack _). vm_compute. exact I.
Defined.

Section CandidateFacts.

Import PyStr.

Lemma candidate_splitext (filename : string) (k : nat) :
  str_mem "/" filename = false →
  splitext (candidate (splitext filename).1 (splitext filename).2 k)
  = ((splitext filename).1 +:+ "_" +:+ pretty k, (splitext filename).2).
Proof.
  intros Hsep. unfold candidate.
  destruct (splitext_cases filename Hsep)
    as [(stem & e & -> & He & Hstem & ->)|[Hdot ->]]; cbn [fst snd].
  - rewrite str_mem_app in Hsep. apply orb_false_iff in Hsep as [Hs1 Hs2].
    replace (stem +:+ "_" +:+ pretty k +:+ String "." e)
      with ((stem +:+ "_" +:+ pretty k) +:+ String "." e)
      by (by rewrite !string_app_assoc).
    apply splitext_stem_ext; [| |done].
    + rewrite !str_mem_app, Hs1, Hs2. simpl.
      by rewrite pretty_nat_free by (by right).
    + by rewrite has_nondot_app, Hstem.
  - rewrite string_app_nil_r.
    apply splitext_no_ext.
    + rewrite !str_mem_app, Hsep. simpl.
      by rewrite pretty_nat_free by (by right).
    + apply strip_dots_app_no_dot; [done|].
      rewrite str_mem_app. simpl. by rewrite pretty_nat_free by (by left).
Qed.

End CandidateFacts.

(** X3. The name under which [resolve_duplicate] places a file has the
    extension of the original name, hence its category: the path it returns
    is in the destination folder, and its last component is split by
    [os.path.splitext] into the same extension as [filename]. *)
Theorem resolve_duplicate_keeps_category (destination_folder : path)
    (filename : string) (w : world) :
  str_mem "/" filename = false →
  ∃ leaf : string,
    resolve_duplicate destination_folder filename w
    = (Return (destination_folder ++ [leaf]), w)
    ∧ (PyStr.splitext leaf).2 = (PyStr.splitext filename).2
    ∧ get_category leaf = get_category filename.
Proof.
  intros Hsep.
  destruct (resolve_duplicate_fuel_spec (files w) destination_folder filename)
    as (dest & Hfuel & _ & Hshape).
  specialize (Hfuel 0). rewrite Nat.add_0_r in Hfuel.
  unfold resolve_duplicate. rewrite Hfuel.
  destruct (path_exists (files w) (destination_folder ++ [filename])).
  - destruct Hshape as (k & _ & -> & _). eexists. split; [done|].
    rewrite !get_category_ext, (candidate_splitext filename k Hsep). done.
  - subst dest. by exists filename.
Qed.

Lemma resolve_duplicate_keeps_category_witness :
  ∃ leaf : string,
    resolve_duplicate ["pics"; "Images"] "photo.jpg" (World TestHost.pictures [])
    = (Return (["pics"; "Images"] ++ [leaf]), World TestHost.pictures [])
    ∧ (PyStr.splitext leaf).2 = (PyStr.splitext "photo.jpg").2
    ∧ get_category leaf = get_category "photo.jpg".
Proof.
  apply (resolve_duplicate_keeps_category ["pics"; "Images"] "photo.jpg"
           (World TestHost.pictures [])).
  reflexivity.
Defined.

(** ** The category folders *)

Section Folders.

Context `{H : Host}.

(** [os.makedirs(folder, exist_ok=True)] for a folder directly under a path
    that exists. *)
Lemma os_makedirs_child_eq (base_path : path) (category : string)
    (f : fs) (out : list message) :
  path_exists f base_path = true →
  os_makedirs_exist_ok (base_path ++ [category]) (World f out) =
    if path_exists f (base_path ++ [category])
    then (if path_isdir f (base_path ++ [category])
          then Return tt else Raise (OSError FileExistsError), World f out)
    else if negb (path_isdir f base_path)
    then (Raise (OSError NotADirectoryError), World f out)
    else match mkdir_fault f (base_path ++ [category]) with
         | Some e => (Raise (OSError e), World f out)
         | None =>
             (Return tt, World (<[base_path ++ [category] := Dir]> f) out)
         end.
Proof.
  intros Hbase. unfold os_makedirs_exist_ok.
  rewrite reverse_app. simpl. unfold mbind at 1, M_bind at 1.
  unfold mbind at 1, M_bind at 1, os_path_exists at 1.
  rewrite reverse_involutive. simpl. rewrite Hbase. simpl.
  rewrite reverse_cons, reverse_involutive.
  unfold try_except, os_mkdir. simpl.
  unfold dirname. rewrite removelast_last.
  destruct (path_exists f (base_path ++ [category])) eqn:Hex.
  { unfold mbind, M_bind, os_path_isdir. simpl.
    by destruct (path_isdir f (base_path ++ [category])). }
  assert (path_isdir f (base_path ++ [category]) = false) as Hnd.
  { destruct (path_isdir f (base_path ++ [category])) eqn:E; [|done].
    apply path_isdir_exists in E. congruence. }
  destruct (path_isdir f base_path); simpl.
  2:{ unfold mbind, M_bind, os_path_isdir, not_a_directory. simpl.
      by rewrite Hnd, Hbase. }
  destruct (mkdir_fault f (base_path ++ [category])); [|done].
  unfold mbind, M_bind, os_path_isdir. simpl. by rewrite Hnd.
Qed.

Lemma folders_added_refl (base_path : path) (names : list string) (f : fs) :
  folders_added base_path names f f.
Proof. intros p. by left. Qed.

Lemma folders_added_exists (base_path : path) (names : list string)
    (f f' : fs) (p : path) :
  folders_added base_path names f f' →
  path_exists f p = true → f' !! p = f !! p.
Proof.
  intros Hadd Hex. destruct (Hadd p) as [?|(Hnone & _)]; [done|].
  apply bool_decide_eq_true in Hex. rewrite Hnone in Hex. by destruct Hex.
Qed.

(** What [create_folders] does under a path that exists: it prints nothing,
    it only adds directories named by the categories, it returns or raises
    an [OSError], and when it returns every category has its directory. *)
Lemma create_folders_spec (base_path : path) (categories : list string) :
  ∀ (w w' : world) (o : outcome unit),
    path_exists (files w) base_path = true →
    create_folders base_path categories w = (o, w') →
    stdout w' = stdout w
    ∧ folders_added base_path categories (files w) (files w')
    ∧ (o = Return tt ∨ ∃ e, o = Raise (OSError e))
    ∧ (o = Return tt →
       ∀ c, c ∈ categories → files w' !! (base_path ++ [c]) = Some Dir).
Proof.
  induction categories as [|category rest IH]; intros [f out] w' o Hbase.
  - intros [= <- <-]. split; [done|]. split; [apply folders_added_refl|].
    split; [by left|]. by intros _ c ?%elem_of_nil.
  - simpl in Hbase. cbn [create_folders]. unfold mbind, M_bind.
    rewrite (os_makedirs_child_eq _ _ _ _ Hbase).
    destruct (path_exists f (base_path ++ [category])) eqn:Hex.
    + destruct (path_isdir f (base_path ++ [category])) eqn:Hd.
      * intros Hrest. apply IH in Hrest as (Hout & Hadd & Ho & Hall); [|done].
        split; [done|]. split; [|split; [done|]].
        -- intros p. destruct (Hadd p) as [?|(? & ? & c & Hc & ->)]; [by left|].
           right. split; [done|]. split; [done|].
           exists c. split; [by apply list_elem_of_further|done].
        -- intros Hret c [->|Hc]%elem_of_cons; [|by apply Hall].
           rewrite (folders_added_exists _ _ _ _ _ Hadd) by done.
           by apply bool_decide_eq_true in Hd.
      * intros [= <- <-]. split; [done|].
        split; [apply folders_added_refl|]. split; [right; by eexists|done].
    + destruct (path_isdir f base_path) eqn:Hbd; simpl.
      2:{ intros [= <- <-]. split; [done|].
          split; [apply folders_added_refl|]. split; [right; by eexists|done]. }
      destruct (mkdir_fault f (base_path ++ [category])) as [e|].
      { intros [= <- <-]. split; [done|].
        split; [apply folders_added_refl|]. split; [right; by eexists|done]. }
      intros Hrest. apply path_exists_false in Hex.
      assert (base_path ++ [category] ≠ base_path) as Hne
        by (by apply base_ne_below).
      apply IH in Hrest as (Hout & Hadd & Ho & Hall).
      2:{ unfold path_exists in *. simpl. by rewrite lookup_insert_ne. }
      simpl in *. split; [done|]. split; [|split; [done|]].
      * intros p. destruct (decide (p = base_path ++ [category])) as [->|Hp].
        -- right. split; [done|]. split.
           ++ rewrite (folders_added_exists _ _ _ _ _ Hadd).
              ** apply lookup_insert_eq.
              ** apply bool_decide_eq_true. rewrite lookup_insert_eq. by eexists.
           ++ exists category. split; [apply list_elem_of_here|done].
        -- destruct (Hadd p) as [Hsame|(Hnone & Hdir & c & Hc & ->)].
           ++ left. by rewrite Hsame, lookup_insert_ne.
           ++ right. rewrite lookup_insert_ne in Hnone by done.
              split; [done|]. split; [done|].
              exists c. split; [by apply list_elem_of_further|done].
      * intros Hret c [->|Hc]%elem_of_cons; [|by apply Hall].
        rewrite (folders_added_exists _ _ _ _ _ Hadd).
        -- apply lookup_insert_eq.
        -- apply bool_decide_eq_true. rewrite lookup_insert_eq. by eexists.
Qed.

(** When every category already has its directory nothing is done. *)
Lemma create_folders_present (base_path : path) (categories : list string)
    (w : world) :
  path_exists (files w) base_path = true →
  (∀ c, c ∈ categories → files w !! (base_path ++ [c]) = Some Dir) →
  create_folders base_path categories w = (Return tt, w).
Proof.
  intros Hbase. induction categories as [|category rest IH]; intros Hall;
    [done|].
  destruct w as [f out]. simpl in *. unfold mbind, M_bind.
  rewrite (os_makedirs_child_eq _ _ _ _ Hbase).
  pose proof (Hall category (list_elem_of_here _ _)) as Hc.
  unfold path_exists, path_isdir. rewrite Hc.
  rewrite bool_decide_eq_true_2 by (by eexists).
  rewrite bool_decide_eq_true_2 by done.
  apply IH. intros c Hin. apply Hall. by apply list_elem_of_further.
Qed.

(** A category whose name is held by something that is not a directory
    stops [create_folders] with an [OSError]. *)
Lemma create_folders_blocked (base_path : path) (categories : list string) :
  ∀ (w : world) (c : string),
    path_exists (files w) base_path = true →
    c ∈ categories →
    files w !! (base_path ++ [c]) = Some File →
    ∃ e w', create_folders base_path categories w = (Raise (OSError e), w').
Proof.
  induction categories as [|category rest IH]; intros [f out] c Hbase Hin Hfile;
    [by apply elem_of_nil in Hin|].
  simpl in *. unfold mbind, M_bind.
  rewrite (os_makedirs_child_eq _ _ _ _ Hbase).
  destruct (decide (c = category)) as [->|Hne].
  - unfold path_exists, path_isdir. rewrite Hfile.
    rewrite bool_decide_eq_true_2 by (by eexists).
    rewrite bool_decide_eq_false_2 by done. by eexists _, _.
  - apply elem_of_cons in Hin as [?|Hin]; [done|].
    destruct (path_exists f (base_path ++ [category])).
    + destruct (path_isdir f (base_path ++ [category])); [|by eexists _, _].
      by apply (IH (World f out) c).
    + destruct (path_isdir f base_path); simpl; [|by eexists _, _].
      destruct (mkdir_fault f (base_path ++ [category])); [by eexists _, _|].
      apply (IH _ c); simpl; [|done|].
      * unfold path_exists in *.
        rewrite lookup_insert_ne; [done|by apply base_ne_below].
      * rewrite lookup_insert_ne; [done|].
        intros Heq%entry_join_inj. congruence.
Qed.

End Folders.

(** ** What the loop keeps *)

Section Keeping.

Lemma entry_step_kind (base_path : path) (entry : string) (f : fs) (k : kind) :
  path_isdir f (base_path ++ [entry]) = false →
  f !! (base_path ++ [entry]) = Some k → k ≠ Dir.
Proof.
  intros Hd Hk ->. apply bool_decide_eq_false in Hd. by apply Hd.
Qed.

(** What a turn does to an entry of the file system: it keeps it, or the
    entry is the visible file of the turn and has left the base directory. *)
Lemma entry_step_kept (base_path : path) (entry : string)
    (s s' : dict) (w w' : world) (p : path) (k : kind) :
  entry_step base_path entry s w s' w' →
  files w !! p = Some k →
  files w' !! p = Some k
  ∨ (p = base_path ++ [entry] ∧ k ≠ Dir
     ∧ is_hidden_or_system entry = false ∧ files w' !! p = None).
Proof.
  intros Hstep Hp.
  inversion Hstep as [| |? ? k0 leaf n Hd Hh Hsrc Hdst Hget|
                      |? ? err k0 leaf Hd Hh Hsrc Hdst]; subst;
    try (by left).
  - simpl. destruct (decide (p = base_path ++ [entry])) as [->|Hne].
    + right. split; [done|]. rewrite Hsrc in Hp. injection Hp as ->.
      split; [by eapply entry_step_kind|]. split; [done|].
      rewrite lookup_insert_ne by apply root_ne_child. apply lookup_delete_eq.
    + left. rewrite lookup_insert_ne by congruence.
      by rewrite lookup_delete_ne.
  - left. simpl. by rewrite lookup_insert_ne by congruence.
Qed.

Lemma entry_step_root_none (base_path : path) (entry : string)
    (s s' : dict) (w w' : world) (n : string) :
  entry_step base_path entry s w s' w' →
  files w !! (base_path ++ [n]) = None →
  files w' !! (base_path ++ [n]) = None.
Proof.
  intros Hstep Hn. inversion Hstep; subst; try done; simpl.
  - rewrite lookup_insert_ne by apply root_ne_child.
    apply lookup_delete_None. by right.
  - by rewrite lookup_insert_ne by apply root_ne_child.
Qed.

Lemma loop_steps_root_none (base_path : path) (entries : list string)
    (s s' : dict) (w w' : world) (n : string) :
  loop_steps base_path entries s w s' w' →
  files w !! (base_path ++ [n]) = None →
  files w' !! (base_path ++ [n]) = None.
Proof.
  induction 1 as [|entry rest s w s1 w1 s2 w2 Hstep Hloop IH]; [done|].
  intros Hn. apply IH. by eapply entry_step_root_none.
Qed.

Lemma loop_steps_kept (base_path : path) (entries : list string)
    (s s' : dict) (w w' : world) (p : path) (k : kind) :
  loop_steps base_path entries s w s' w' →
  files w !! p = Some k →
  files w' !! p = Some k
  ∨ (∃ e, e ∈ entries ∧ p = base_path ++ [e] ∧ k ≠ Dir
          ∧ is_hidden_or_system e = false ∧ files w' !! p = None).
Proof.
  induction 1 as [|entry rest s w s1 w1 s2 w2 Hstep Hloop IH]; [by left|].
  intros Hp.
  destruct (entry_step_kept _ _ _ _ _ _ p k Hstep Hp)
    as [Hkept|(-> & Hk & Hh & Hgone)].
  - destruct (IH Hkept) as [?|(e & He & ? & ? & ? & ?)]; [by left|].
    right. exists e. split; [by apply list_elem_of_further|done].
  - right. exists entry. split; [apply list_elem_of_here|].
    split; [done|]. split; [done|]. split; [done|].
    by eapply loop_steps_root_none.
Qed.


(** An entry that has left the base directory is in its category folder,
    under a name that was free before the run. *)
Lemma loop_steps_landed (base_path : path) (entries : list string)
    (s s' : dict) (w w' : world) (e : string) (k : kind) :
  loop_steps base_path entries s w s' w' →
  files w !! (base_path ++ [e]) = Some k →
  files w' !! (base_path ++ [e]) = None →
  ∃ leaf,
    files w' !! (base_path ++ [get_category e; leaf]) = Some k
    ∧ files w !! (base_path ++ [get_category e; leaf]) = None.
Proof.
  induction 1 as [s w|entry rest s w s1 w1 s2 w2 Hstep Hloop IH];
    intros He Hgone; [congruence|].
  destruct (entry_step_kept _ _ _ _ _ _ _ k Hstep He)
    as [Hkept|(Heq & _ & _ & Hnone)].
  - destruct (IH Hkept Hgone) as (leaf & Hin & Hfree).
    exists leaf. split; [done|].
    destruct (files w !! (base_path ++ [get_category e; leaf])) as [k'|] eqn:Hw;
      [|done].
    destruct (entry_step_kept _ _ _ _ _ _ _ k' Hstep Hw)
      as [Hk'|(Hroot & _)]; [congruence|].
    by apply root_ne_child in Hroot.
  - apply entry_join_inj in Heq as ->.
    inversion Hstep as [| |? ? k0 leaf n Hd Hh Hsrc Hdst Hget|
                        |? ? err k0 leaf Hd Hh Hsrc Hdst]; subst;
      simpl in Hnone; try congruence.
    2:{ rewrite lookup_insert_ne in Hnone by apply root_ne_child.
        congruence. }
    rewrite Hsrc in He. injection He as ->.
    exists leaf. split; [|done].
    assert (files
              (World (<[base_path ++ [get_category entry; leaf] := k]>
                        (delete (base_path ++ [entry]) (files w)))
                     (stdout w))
            !! (base_path ++ [get_category entry; leaf]) = Some k) as Hin
      by (simpl; apply lookup_insert_eq).
    destruct (loop_steps_kept _ _ _ _ _ _ _ k Hloop Hin)
      as [?|(e' & _ & Hroot & _)]; [done|].
    by apply root_ne_child in Hroot.
Qed.

End Keeping.

(** ** What the loop reports *)

Section Reports.

Lemma report_inj (e e' : string) (err err' : os_error) :
  report e err = report e' err' → e = e'.
Proof. destruct err, err'; simpl; congruence. Qed.

(** The reports of a run over a listing without repetition name exactly the
    visible entries that are not directories and are still where they
    were. *)
Lemma loop_steps_reports (base_path : path) (entries : list string)
    (s s' : dict) (w w' : world) :
  loop_steps base_path entries s w s' w' →
  NoDup entries →
  ∃ reports : list message,
    stdout w' = stdout w ++ reports
    ∧ ∀ e : string,
        (∃ err, report e err ∈ reports)
        ↔ (e ∈ entries
           ∧ is_hidden_or_system e = false
           ∧ path_isdir (files w) (base_path ++ [e]) = false
           ∧ files w' !! (base_path ++ [e]) = files w !! (base_path ++ [e])).
Proof.
  induction 1 as [s w|entry rest s w s1 w1 s2 w2 Hstep Hloop IH]; intros Hnd.
  - exists []. split; [by rewrite app_nil_r|]. intros e. split.
    + by intros (err & ?%elem_of_nil).
    + by intros (?%elem_of_nil & _).
  - apply NoDup_cons in Hnd as [Hnotin Hnd].
    destruct (IH Hnd) as (reports & Hout & Hiff).
    pose proof (loop_steps_frame _ _ _ _ _ _ entry Hloop Hnotin) as Hlater.
    assert (∀ e, e ∈ rest →
              files w1 !! (base_path ++ [e]) = files w !! (base_path ++ [e]))
      as Hframe.
    { intros e He. eapply entry_step_frame; [done|]. by intros ->. }
    assert (∀ (first : list message),
              (∀ e, (∃ err, report e err ∈ first)
                    ↔ (e = entry
                       ∧ is_hidden_or_system e = false
                       ∧ path_isdir (files w) (base_path ++ [e]) = false
                       ∧ files w1 !! (base_path ++ [e])
                         = files w !! (base_path ++ [e]))) →
              stdout w1 = stdout w ++ first →
              ∃ reports0 : list message,
                stdout w2 = stdout w ++ reports0
                ∧ ∀ e, (∃ err, report e err ∈ reports0)
                       ↔ (e ∈ entry :: rest
                          ∧ is_hidden_or_system e = false
                          ∧ path_isdir (files w) (base_path ++ [e]) = false
                          ∧ files w2 !! (base_path ++ [e])
                            = files w !! (base_path ++ [e]))) as Hjoin.
    { intros first Hfirst Hout1. exists (first ++ reports). split.
      { by rewrite Hout, Hout1, app_assoc. }
      intros e. split.
      - intros (err & [Hin|Hin]%elem_of_app).
        + destruct (proj1 (Hfirst e) (ex_intro _ err Hin)) as (-> & ? & ? & Hsame).
          split; [apply list_elem_of_here|]. split; [done|]. split; [done|].
          by rewrite Hlater.
        + destruct (proj1 (Hiff e) (ex_intro _ err Hin)) as (He & ? & Hd & Hsame).
          split; [by apply list_elem_of_further|]. split; [done|].
          unfold path_isdir in *. rewrite <- (Hframe e He).
          split; [done|]. done.
      - intros ([->|He]%elem_of_cons & Hh & Hd & Hsame).
        + rewrite Hlater in Hsame.
          destruct (proj2 (Hfirst entry)) as (err & Hin); [done|].
          exists err. apply elem_of_app. by left.
        + destruct (proj2 (Hiff e)) as (err & Hin).
          { split; [done|]. split; [done|]. unfold path_isdir in *.
            rewrite (Hframe e He). split; [done|]. by rewrite Hsame. }
          exists err. apply elem_of_app. by right. }
    inversion Hstep as [? ? Hd|? ? Hd Hh|? ? k leaf n Hd Hh Hsrc Hdst Hget
                        |? ? err Hd Hh|? ? err k leaf Hd Hh Hsrc Hdst]; subst.
    + apply (Hjoin []); [|by rewrite app_nil_r]. intros e. split.
      * by intros (err & ?%elem_of_nil).
      * intros (-> & _ & ? & _). congruence.
    + apply (Hjoin []); [|by rewrite app_nil_r]. intros e. split.
      * by intros (err & ?%elem_of_nil).
      * intros (-> & ? & _). congruence.
    + apply (Hjoin []); [|by rewrite app_nil_r]. intros e. split.
      * by intros (err & ?%elem_of_nil).
      * intros (-> & _ & _ & Hsame). simpl in Hsame.
        rewrite lookup_insert_ne in Hsame by apply root_ne_child.
        rewrite lookup_delete_eq in Hsame. congruence.
    + apply (Hjoin [report entry err]); [|done]. intros e. split.
      * intros (err' & ->%list_elem_of_singleton%report_inj). done.
      * intros (-> & _). exists err. apply list_elem_of_here.
    + apply (Hjoin [report entry err]); [|done]. intros e. split.
      * intros (err' & ->%list_elem_of_singleton%report_inj).
        split; [done|]. split; [done|]. split; [done|]. simpl.
        by rewrite lookup_insert_ne by apply root_ne_child.
      * intros (-> & _). exists err. apply list_elem_of_here.
Qed.

End Reports.

(** ** What a call can end with *)

Section Outcomes.

Context `{H : Host}.

(** [organize_files] returns a summary whose keys are the six categories, or
    raises the [OSError] of the listing and has changed nothing. *)
Lemma organize_files_outcome (base_path : path) (w : world) :
  (∃ (summary : dict) (w' : world),
     organize_files base_path w = (Return summary, w')
     ∧ summary.*1 = CATEGORIES
     ∧ loop_steps base_path (listdir_order (files w) base_path)
         initial_summary w summary w')
  ∨ (∃ e : os_error,
       organize_files base_path w = (Raise (OSError e), w)
       ∧ (files w !! base_path ≠ Some Dir
          ∨ listdir_fault (files w) base_path = Some e)).
Proof.
  destruct (files w !! base_path) as [[|]|] eqn:Hbase.
  - right. exists NotADirectoryError. split; [|by left].
    unfold organize_files, mbind, M_bind, os_listdir. by rewrite Hbase.
  - destruct (listdir_fault (files w) base_path) as [e|] eqn:Hfault.
    + right. exists e. split; [|by right].
      unfold organize_files, mbind, M_bind, os_listdir. by rewrite Hbase, Hfault.
    + left. destruct (organize_files_steps base_path w _
                        (os_listdir_returns _ _ Hbase Hfault))
        as (s' & w' & Hrun & Hsteps & Hkeys).
      by exists s', w'.
  - right. exists FileNotFoundError. split; [|by left].
    unfold organize_files, mbind, M_bind, os_listdir. by rewrite Hbase.
Qed.

Lemma print_rows_lines (items : dict) (w : world) :
  print_rows items w
  = (Return tt, World (files w) (stdout w ++ summary_rows items)).
Proof.
  revert w. induction items as [|[category count] items IH]; intros w.
  - unfold summary_rows. simpl. rewrite app_nil_r. by destruct w.
  - cbn [print_rows]. unfold mbind, M_bind, summary_rows.
    cbn [List.filter snd]. case_decide as Hpos.
    + rewrite bool_decide_eq_true_2 by done. unfold print at 1.
      rewrite IH. simpl. by rewrite <- app_assoc.
    + rewrite bool_decide_eq_false_2 by done. unfold mret, M_ret. apply IH.
Qed.

Lemma summary_rows_total (summary : dict) :
  sum_list (row_count <$> summary_rows summary) = dict_total summary.
Proof.
  unfold summary_rows, dict_total.
  induction summary as [|[category count] summary IH]; [done|].
  cbn [List.filter snd]. rewrite fmap_cons. cbn [sum_list snd].
  case_bool_decide as Hpos.
  - rewrite !fmap_cons. cbn [sum_list row_count fst snd]. by rewrite IH.
  - rewrite IH. unfold id. lia.
Qed.

End Outcomes.

(** X4. When [create_category_folders] returns, under a base path that
    exists, each of the six categories has its directory in the base
    directory; nothing was printed; and the file system has only grown by
    directories of the base directory named after categories: every other
    path holds what it held before. *)
Theorem create_category_folders_makes `{H : Host} (base_path : path)
    (w w' : world) :
  path_exists (files w) base_path = true →
  create_category_folders base_path w = (Return tt, w') →
  (∀ c, c ∈ CATEGORIES → files w' !! (base_path ++ [c]) = Some Dir)
  ∧ stdout w' = stdout w
  ∧ folders_added base_path CATEGORIES (files w) (files w').
Proof.
  intros Hbase Hrun.
  destruct (create_folders_spec base_path CATEGORIES w w' _ Hbase Hrun)
    as (Hout & Hadd & _ & Hall).
  split; [by apply Hall|]. by split.
Qed.

Lemma create_category_folders_makes_witness :
  let w' := (@create_category_folders TestHost.host ["home"] TestHost.start).2 in
  (∀ c, c ∈ CATEGORIES → files w' !! (["home"] ++ [c]) = Some Dir)
  ∧ stdout w' = stdout TestHost.start
  ∧ folders_added ["home"] CATEGORIES (files TestHost.start) (files w').
Proof.
  intros w'.
  apply (@create_category_folders_makes TestHost.host ["home"] TestHost.start w');
    vm_compute; reflexivity.
Defined.

(** X5. [create_category_folders] is idempotent: once it has returned, a
    second call returns as well and changes nothing; and it changes nothing
    whenever the six directories are already there. *)
Theorem create_category_folders_idempotent `{H : Host} (base_path : path)
    (w w' : world) :
  path_exists (files w) base_path = true →
  (create_category_folders base_path w = (Return tt, w') →
   create_category_folders base_path w' = (Return tt, w'))
  ∧ ((∀ c, c ∈ CATEGORIES → files w !! (base_path ++ [c]) = Some Dir) →
     create_category_folders base_path w = (Return tt, w)).
Proof.
  intros Hbase. split.
  - intros Hrun.
    destruct (create_folders_spec base_path CATEGORIES w w' _ Hbase Hrun)
      as (_ & Hadd & _ & Hall).
    apply create_folders_present; [|by apply Hall].
    unfold path_exists in *.
    by rewrite (folders_added_exists _ _ _ _ _ Hadd Hbase).
  - intros Hall. by apply create_folders_present.
Qed.

Lemma create_category_folders_idempotent_witness :
  let w' := (@create_category_folders TestHost.host ["home"] TestHost.start).2 in
  @create_category_folders TestHost.host ["home"] w' = (Return tt, w')
  ∧ @create_category_folders TestHost.host ["pics"] (World TestHost.pictures [])
    = (Return tt, World TestHost.pictures []).
Proof.
  intros w'. split.
  - apply (@create_category_folders_idempotent TestHost.host ["home"]
             TestHost.start w'); vm_compute; reflexivity.
  - apply (@create_category_folders_idempotent TestHost.host ["pics"]
             (World TestHost.pictures []) (World TestHost.pictures []));
      [vm_compute; reflexivity|].
    intros c Hc. unfold CATEGORIES in Hc.
    repeat (apply elem_of_cons in Hc as [->|Hc]; [vm_compute; reflexivity|]).
    by apply elem_of_nil in Hc.
Defined.

(** X6. A file whose name is the name of a category stops the run: under a
    base path that exists, [create_category_folders] raises an [OSError] and
    no entry that was there is lost; and [main], once the path is validated,
    ends with exit status 1 without having moved or removed anything. *)
Theorem create_category_folders_blocked `{H : Host} (base_path : path)
    (w : world) (c : string) :
  path_exists (files w) base_path = true →
  c ∈ CATEGORIES →
  files w !! (base_path ++ [c]) = Some File →
  (∃ e w',
     create_category_folders base_path w = (Raise (OSError e), w')
     ∧ ∀ p k, files w !! p = Some k → files w' !! p = Some k)
  ∧ (∀ prog target : string,
       validate_path target w = (Return base_path, w) →
       exit_status (main [prog; target] w).1 = Some 1%Z
       ∧ ∀ p k, files w !! p = Some k →
                files (main [prog; target] w).2 !! p = Some k).
Proof.
  intros Hbase Hc Hfile.
  assert (∀ out, ∃ e w',
            create_category_folders base_path (World (files w) out)
            = (Raise (OSError e), w')
            ∧ ∀ p k, files w !! p = Some k → files w' !! p = Some k) as Hblock.
  { intros out.
    destruct (create_folders_blocked base_path CATEGORIES
                (World (files w) out) c Hbase Hc Hfile) as (e & w' & Hrun).
    exists e, w'. split; [done|]. intros p k Hp.
    destruct (create_folders_spec base_path CATEGORIES (World (files w) out)
                w' _ Hbase Hrun) as (_ & Hadd & _).
    destruct (Hadd p) as [Hsame|(Hnone & _)]; simpl in *; congruence. }
  split.
  - destruct (Hblock (stdout w)) as (e & w' & Hrun & Hkeep).
    exists e, w'. split; [|done]. by destruct w.
  - intros prog target Hval.
    destruct (Hblock (stdout w ++ [MsgScanning base_path]))
      as (e & w' & Hrun & Hkeep).
    assert (main [prog; target] w = (Raise (OSError e), w')) as ->.
    { unfold main, mbind, M_bind. rewrite Hval. unfold print at 1.
      by rewrite Hrun. }
    by split.
Qed.

Lemma create_category_folders_blocked_witness :
  (∃ e w',
     @create_category_folders TestHost.host ["inbox"] (World blocked_inbox [])
     = (Raise (OSError e), w')
     ∧ ∀ p k, blocked_inbox !! p = Some k → files w' !! p = Some k)
  ∧ exit_status
      (@main TestHost.host ["organizer.py"; "/inbox"] (World blocked_inbox [])).1
    = Some 1%Z.
Proof.
  destruct (@create_category_folders_blocked TestHost.host ["inbox"]
              (World blocked_inbox []) "Videos") as [Hraise Hmain].
  - vm_compute. reflexivity.
  - apply (bool_decide_unpack _). vm_compute. exact I.
  - vm_compute. reflexivity.
  - split; [exact Hraise|].
    apply (Hmain "organizer.py" "/inbox"). vm_compute. reflexivity.
Defined.


(** X8. An entry that [organize_files] has taken out of the base directory
    is in the folder of its category, with the kind it had, at a path where
    [os.path.exists] saw nothing before the call. *)
Theorem organize_files_lands `{H : Host} (base_path : path) (w : world)
    (e : string) (k : kind) :
  files w !! (base_path ++ [e]) = Some k →
  files (organize_files base_path w).2 !! (base_path ++ [e]) = None →
  ∃ leaf : string,
    files (organize_files base_path w).2
      !! (base_path ++ [get_category e; leaf]) = Some k
    ∧ files w !! (base_path ++ [get_category e; leaf]) = None.
Proof.
  destruct (organize_files_outcome base_path w)
    as [(summary & w' & -> & _ & Hsteps)|(err & -> & _)]; simpl.
  - intros He Hgone. by eapply loop_steps_landed.
  - congruence.
Qed.

Lemma organize_files_lands_witness :
  let w := World TestHost.pictures [] in
  ∃ leaf : string,
    files (@organize_files TestHost.host ["pics"] w).2
      !! (["pics"] ++ [get_category "photo.jpg"; leaf]) = Some File
    ∧ files w !! (["pics"] ++ [get_category "photo.jpg"; leaf]) = None.
Proof.
  intros w.
  apply (@organize_files_lands TestHost.host ["pics"] w "photo.jpg" File);
    vm_compute; reflexivity.
Defined.

(** X9. When [organize_files] has its listing, the lines it prints report
    exactly the entries it has left behind: an entry is named by a report if
    and only if it is an entry of the base directory that is visible, is not
    a directory, and is still where it was after the call. *)
Theorem organize_files_reports_exact `{H : Host} `{!HostLaws H}
    (base_path : path) (w : world) :
  files w !! base_path = Some Dir →
  listdir_fault (files w) base_path = None →
  ∃ (summary : dict) (f' : fs) (reports : list message),
    organize_files base_path w
    = (Return summary, World f' (stdout w ++ reports))
    ∧ ∀ e : string,
        (∃ err, report e err ∈ reports)
        ↔ (is_Some (files w !! (base_path ++ [e]))
           ∧ is_hidden_or_system e = false
           ∧ path_isdir (files w) (base_path ++ [e]) = false
           ∧ f' !! (base_path ++ [e]) = files w !! (base_path ++ [e])).
Proof.
  intros Hdir Hfault.
  destruct (organize_files_steps base_path w _
              (os_listdir_returns _ _ Hdir Hfault))
    as (summary & w' & Hrun & Hsteps & _).
  destruct (loop_steps_reports _ _ _ _ _ _ Hsteps
              (listdir_NoDup (files w) base_path)) as (reports & Hout & Hiff).
  exists summary, (files w'), reports. split.
  - rewrite Hrun, <- Hout. by destruct w'.
  - intros e. rewrite (Hiff e), listdir_elem. done.
Qed.

Lemma organize_files_reports_exact_witness :
  let w := (@create_category_folders TestHost.host ["home"] TestHost.start).2 in
  ∃ (summary : dict) (f' : fs) (reports : list message),
    @organize_files TestHost.host ["home"] w
    = (Return summary, World f' (stdout w ++ reports))
    ∧ ∀ e : string,
        (∃ err, report e err ∈ reports)
        ↔ (is_Some (files w !! (["home"] ++ [e]))
           ∧ is_hidden_or_system e = false
           ∧ path_isdir (files w) (["home"] ++ [e]) = false
           ∧ f' !! (["home"] ++ [e]) = files w !! (["home"] ++ [e])).
Proof.
  intros w.
  apply (@organize_files_reports_exact TestHost.host TestHost_laws ["home"] w);
    vm_compute; reflexivity.
Defined.

(** X10. [organize_files] ends in one of two ways. It returns a summary
    whose keys are the six categories in the order of [CATEGORIES], and then
    the base path was a directory; or the listing of the base path has
    failed, it raises that [OSError], and nothing has changed. It never
    raises a [KeyError] and never runs for ever. *)
Theorem organize_files_ends `{H : Host} (base_path : path) (w : world) :
  match (organize_files base_path w).1 with
  | Return summary =>
      summary.*1 = CATEGORIES ∧ files w !! base_path = Some Dir
      ∧ listdir_fault (files w) base_path = None
  | Raise (OSError e) =>
      (organize_files base_path w).2 = w
      ∧ (files w !! base_path ≠ Some Dir
         ∨ listdir_fault (files w) base_path = Some e)
  | _ => False
  end.
Proof.
  destruct (organize_files_outcome base_path w)
    as [(summary & w' & Hrun & Hkeys & _)|(e & -> & Hwhy)]; simpl; [|done].
  rewrite Hrun. simpl. split; [done|].
  unfold organize_files, mbind, M_bind, os_listdir in Hrun.
  destruct (files w !! base_path) as [[|]|]; try done.
  by destruct (listdir_fault (files w) base_path).
Qed.

(** ** The report and the entry point *)

(** X11. [print_summary] never fails and leaves the file system alone. For a
    summary whose total is zero it prints the one line that the folder is
    already clean. Otherwise it prints the title, the header between two
    borders, one row for each category with a count above zero, in the order
    of the summary, then the total between two borders; the counts of the
    rows add up to the total that is printed, and with the six categories as
    keys the first column is 11 wide. *)
Theorem print_summary_table `{H : Host} (summary : dict) (w : world) :
  let total := dict_total summary in
  let cat_width := max_list (String.length <$> summary.*1) + 2 in
  print_summary summary w
  = (Return tt,
     World (files w)
       (stdout w ++
        if decide (total = 0) then [MsgAlreadyClean]
        else [MsgTitle (cat_width + 8 + 3); MsgBorder cat_width 8;
              MsgHeader cat_width 8; MsgBorder cat_width 8]
             ++ summary_rows summary
             ++ [MsgBorder cat_width 8; MsgTotal total; MsgBorder cat_width 8]))
  ∧ sum_list (row_count <$> summary_rows summary) = total
  ∧ Forall (λ m, 0 < row_count m) (summary_rows summary)
  ∧ (summary.*1 = CATEGORIES → cat_width = 11).
Proof.
  intros total cat_width. split; [|split; [|split]].
  - unfold print_summary. fold total. case_decide; [done|].
    fold cat_width. unfold mbind, M_bind, print at 1 2 3 4. simpl.
    rewrite print_rows_lines. unfold print. simpl.
    by rewrite <- !app_assoc.
  - apply summary_rows_total.
  - unfold summary_rows. apply Forall_fmap, Forall_forall.
    intros [category count] Hin. apply list_elem_of_In, List.filter_In in Hin.
    destruct Hin as [_ Hpos]. by apply bool_decide_eq_true in Hpos.
  - intros Hkeys. unfold cat_width. by rewrite Hkeys.
Qed.

Section Main.

Context `{H : Host}.

Lemma validate_path_cases (target : string) (w : world) :
  (path_isdir (files w) (os_path_abspath target) = true
   ∧ access_rw (files w) (os_path_abspath target) = true
   ∧ validate_path target w = (Return (os_path_abspath target), w))
  ∨ (∃ m, validate_path target w
          = (Raise (SystemExit 1), World (files w) (stdout w ++ [m]))
          ∧ (path_isdir (files w) (os_path_abspath target) = false
             ∨ access_rw (files w) (os_path_abspath target) = false)).
Proof.
  assert (∀ ex d a,
            path_exists (files w) (os_path_abspath target) = ex →
            path_isdir (files w) (os_path_abspath target) = d →
            access_rw (files w) (os_path_abspath target) = a →
            validate_path target w =
              if negb ex
              then (Raise (SystemExit 1),
                    World (files w)
                      (stdout w ++ [MsgNotExist (os_path_abspath target)]))
              else if negb d
              then (Raise (SystemExit 1),
                    World (files w)
                      (stdout w ++ [MsgNotADirectory (os_path_abspath target)]))
              else if negb a
              then (Raise (SystemExit 1),
                    World (files w)
                      (stdout w
                       ++ [MsgInsufficientPermissions (os_path_abspath target)]))
              else (Return (os_path_abspath target), w)) as Heval.
  { intros ex d a Hex Hd Ha.
    unfold validate_path, mbind, M_bind, os_path_exists, os_path_isdir,
      os_access_rw.
    rewrite Hex. destruct ex; simpl; [|done].
    rewrite Hd. destruct d; simpl; [|done].
    rewrite Ha. by destruct a. }
  destruct (path_isdir (files w) (os_path_abspath target)) eqn:Hd.
  - rewrite (Heval true true _ (path_isdir_exists _ _ Hd) eq_refl eq_refl).
    destruct (access_rw (files w) (os_path_abspath target)); simpl.
    + by left.
    + right. eexists. split; [done|by right].
  - right. rewrite (Heval _ false _ eq_refl eq_refl eq_refl).
    destruct (path_exists (files w) (os_path_abspath target)); simpl.
    + eexists. split; [done|by left].
    + eexists. split; [done|by left].
Qed.

(** The ways [main] ends when it is given a path. *)
Lemma main_cases (prog target : string) (w : world) :
  let base_path := os_path_abspath target in
  (∃ m, main [prog; target] w
        = (Raise (SystemExit 1), World (files w) (stdout w ++ [m]))
        ∧ (path_isdir (files w) base_path = false
           ∨ access_rw (files w) base_path = false))
  ∨ (path_isdir (files w) base_path = true
     ∧ access_rw (files w) base_path = true
     ∧ ∃ (o : outcome unit) (w2 : world),
         create_category_folders base_path
           (World (files w) (stdout w ++ [MsgScanning base_path])) = (o, w2)
         ∧ ((∃ e, o = Raise (OSError e)
                  ∧ main [prog; target] w = (Raise (OSError e), w2))
            ∨ (o = Return tt
               ∧ ((∃ e, organize_files base_path w2 = (Raise (OSError e), w2)
                        ∧ main [prog; target] w = (Raise (OSError e), w2))
                  ∨ (∃ summary w3 lines,
                       organize_files base_path w2 = (Return summary, w3)
                       ∧ loop_steps base_path
                           (listdir_order (files w2) base_path)
                           initial_summary w2 summary w3
                       ∧ main [prog; target] w
                         = (Return tt,
                            World (files w3)
                              (stdout w3 ++ lines ++ [MsgDone]))))))).
Proof.
  intros base_path.
  destruct (validate_path_cases target w)
    as [(Hd & Ha & Hval)|(m & Hval & Hwhy)].
  2:{ left. exists m. split; [|done].
      unfold main, mbind, M_bind. by rewrite Hval. }
  right. split; [done|]. split; [done|].
  destruct (create_category_folders base_path
              (World (files w) (stdout w ++ [MsgScanning base_path])))
    as [o w2] eqn:Hcreate.
  exists o, w2. split; [done|].
  destruct (create_folders_spec base_path CATEGORIES
              (World (files w) (stdout w ++ [MsgScanning base_path])) w2 o
              (path_isdir_exists _ _ Hd) Hcreate)
    as (_ & _ & [->|(e & ->)] & _).
  2:{ left. exists e. split; [done|].
      unfold main, mbind, M_bind. rewrite Hval. unfold print at 1.
      fold base_path. by rewrite Hcreate. }
  right. split; [done|].
  destruct (organize_files_outcome base_path w2)
    as [(summary & w3 & Hrun & _ & Hsteps)|(e & Hrun & _)].
  - right. destruct (print_summary_returns summary w3) as (lines & Hprint).
    exists summary, w3, lines. split; [done|]. split; [done|].
    unfold main, mbind, M_bind. rewrite Hval. unfold print at 1.
    fold base_path. rewrite Hcreate, Hrun, Hprint. unfold print. simpl.
    by rewrite <- app_assoc.
  - left. exists e. split; [done|].
    unfold main, mbind, M_bind. rewrite Hval. unfold print at 1.
    fold base_path. by rewrite Hcreate, Hrun.
Qed.

End Main.

(** X12. [main] touches nothing unless it is given exactly one path and that
    path is a directory the process may read and write: in every other case
    it prints one line (the usage line when the number of arguments is
    wrong), leaves the file system as it was, creating no folder, and ends
    with exit status 1. *)
Theorem main_rejects `{H : Host} (argv : list string) (w : world) :
  match argv with
  | [_; target] =>
      path_isdir (files w) (os_path_abspath target)
      && access_rw (files w) (os_path_abspath target) = false
  | _ => True
  end →
  ∃ m : message,
    main argv w = (Raise (SystemExit 1), World (files w) (stdout w ++ [m]))
    ∧ exit_status (main argv w).1 = Some 1%Z
    ∧ (length argv ≠ 2 → m = MsgUsage).
Proof.
  intros Hbad.
  assert (∀ m, main argv w
               = (Raise (SystemExit 1), World (files w) (stdout w ++ [m])) →
               (length argv ≠ 2 → m = MsgUsage) →
               ∃ m0, main argv w
                     = (Raise (SystemExit 1), World (files w) (stdout w ++ [m0]))
                     ∧ exit_status (main argv w).1 = Some 1%Z
                     ∧ (length argv ≠ 2 → m0 = MsgUsage)) as Hpack.
  { intros m Hm Hu. exists m. split; [done|]. by rewrite Hm. }
  destruct argv as [|prog [|target [|extra argv]]];
    try (by apply (Hpack MsgUsage)).
  destruct (main_cases prog target w) as [(m & Hm & _)|(Hd & Ha & _)].
  - apply (Hpack m); [done|]. simpl. lia.
  - rewrite Hd, Ha in Hbad. done.
Qed.

Lemma main_rejects_witness :
  (∃ m, @main TestHost.host ["organizer.py"] TestHost.start
        = (Raise (SystemExit 1),
           World (files TestHost.start) (stdout TestHost.start ++ [m]))
        ∧ exit_status (@main TestHost.host ["organizer.py"] TestHost.start).1
          = Some 1%Z
        ∧ (length ["organizer.py"] ≠ 2 → m = MsgUsage))
  ∧ (∃ m, @main TestHost.host ["organizer.py"; "/home/notes.txt"] TestHost.start
          = (Raise (SystemExit 1),
             World (files TestHost.start) (stdout TestHost.start ++ [m]))
          ∧ exit_status
              (@main TestHost.host ["organizer.py"; "/home/notes.txt"]
                 TestHost.start).1 = Some 1%Z
          ∧ (length ["organizer.py"; "/home/notes.txt"] ≠ 2 → m = MsgUsage)).
Proof.
  split.
  - apply (@main_rejects TestHost.host ["organizer.py"] TestHost.start). exact I.
  - apply (@main_rejects TestHost.host ["organizer.py"; "/home/notes.txt"]
             TestHost.start).
    vm_compute. reflexivity.
Defined.

(** X13. For every argument list and every state of the file system [main]
    ends, with exit status 0 or 1; the status is 0 exactly when [main]
    returns, and then the last line printed is the final success line. *)
Theorem main_exit_status_range `{H : Host} (argv : list string) (w : world) :
  (exit_status (main argv w).1 = Some 0%Z
   ∧ (main argv w).1 = Return tt
   ∧ last (stdout (main argv w).2) = Some MsgDone)
  ∨ (exit_status (main argv w).1 = Some 1%Z
     ∧ ∃ e, (main argv w).1 = Raise e).
Proof.
  destruct argv as [|prog [|target [|extra argv]]];
    try (right; split; [done|by eexists]).
  destruct (main_cases prog target w)
    as [(m & -> & _)|(_ & _ & o & w2 & _ &
          [(e & _ & ->)|(_ & [(e & _ & ->)|(s & w3 & lines & _ & _ & ->)])])].
  - right. split; [done|by eexists].
  - right. split; [done|by eexists].
  - right. split; [done|by eexists].
  - left. split; [done|]. split; [done|]. simpl.
    by rewrite app_assoc, last_snoc.
Qed.

(** X14. When [main] returns, the six category folders are directories of
    the target directory, the first line it has printed is the scan notice
    and the last one the success line, and every entry that was in the file
    system is still at its path with its kind, unless it is a visible entry
    of the target directory, not a directory, which has left it. *)
Theorem main_returns_state `{H : Host} (prog target : string) (w w' : world) :
  main [prog; target] w = (Return tt, w') →
  (∀ c, c ∈ CATEGORIES →
        files w' !! (os_path_abspath target ++ [c]) = Some Dir)
  ∧ (∃ lines, stdout w'
              = stdout w ++ MsgScanning (os_path_abspath target) :: lines
                ++ [MsgDone])
  ∧ (∀ (p : path) (k : kind),
       files w !! p = Some k →
       files w' !! p = Some k
       ∨ (∃ e, p = os_path_abspath target ++ [e] ∧ k ≠ Dir
               ∧ is_hidden_or_system e = false ∧ files w' !! p = None)).
Proof.
  intros Hmain.
  destruct (main_cases prog target w)
    as [(m & Hm & _)|(Hd & _ & o & w2 & Hcreate &
          [(e & _ & Hm)|(-> & [(e & _ & Hm)
                               |(s & w3 & lines & _ & Hsteps & Hm)])])];
    rewrite Hm in Hmain; try discriminate.
  injection Hmain as <-.
  destruct (create_folders_spec (os_path_abspath target) CATEGORIES
              (World (files w)
                 (stdout w ++ [MsgScanning (os_path_abspath target)]))
              w2 _ (path_isdir_exists _ _ Hd) Hcreate)
    as (Hout2 & Hadd & _ & Hall).
  destruct (loop_steps_stdout _ _ _ _ _ _ Hsteps) as (reports & Hout3 & _).
  simpl in *. split; [|split].
  - intros c Hc.
    destruct (loop_steps_kept _ _ _ _ _ _ _ Dir Hsteps (Hall eq_refl c Hc))
      as [?|(e & _ & _ & Hk & _)]; done.
  - exists (reports ++ lines).
    rewrite Hout3, Hout2, <- !app_assoc. done.
  - intros p k Hp.
    assert (files w2 !! p = Some k) as Hp2.
    { destruct (Hadd p) as [Hsame|(Hnone & _)]; congruence. }
    destruct (loop_steps_kept _ _ _ _ _ _ p k Hsteps Hp2)
      as [?|(e & _ & ? & ? & ? & ?)]; [by left|].
    right. by exists e.
Qed.

Lemma main_returns_state_witness :
  let w' := (@main TestHost.host ["organizer.py"; "/home"] TestHost.start).2 in
  (∀ c, c ∈ CATEGORIES → files w' !! (["home"] ++ [c]) = Some Dir)
  ∧ (∃ lines, stdout w'
              = stdout TestHost.start ++ MsgScanning ["home"] :: lines
                ++ [MsgDone])
  ∧ (∀ (p : path) (k : kind),
       files TestHost.start !! p = Some k →
       files w' !! p = Some k
       ∨ (∃ e, p = ["home"] ++ [e] ∧ k ≠ Dir
               ∧ is_hidden_or_system e = false ∧ files w' !! p = None)).
Proof.
  intros w'.
  apply (@main_returns_state TestHost.host "organizer.py" "/home"
           TestHost.start w').
  vm_compute. reflexivity.
Defined.
